(** * SDD structure validator: a shallow embedding of
    [scripts/sdd/validate_structure.py] and the properties of its checks.

    Text is a sequence of characters with code points U+0000..U+00FF
    (one [ascii] per character).  On this range Python's case-insensitive
    matching is the folding of the ASCII letters, and [\s] is the set
    [is_space] below.  The repository is a tree of ordinary files and
    directories; a file is either readable text or fails to be read. *)

From Stdlib Require Import List String Ascii Bool Arith PeanoNat Lia DecimalString.
Import ListNotations.
Local Open Scope string_scope.
Local Open Scope list_scope.

(* ================================================================= *)
(** ** Python runtime pieces used by the validator *)

Module Py.

Definition nl : string := String (ascii_of_nat 10) EmptyString.
Definition dq : string := String (ascii_of_nat 34) EmptyString.
Definition sq : string := String (ascii_of_nat 39) EmptyString.

(** [needle in hay] *)
Fixpoint contains (needle hay : string) : bool :=
  if prefix needle hay then true
  else match hay with
       | EmptyString => false
       | String _ h => contains needle h
       end.

(** [s.endswith(suf)] *)
Definition endswith (s suf : string) : bool :=
  let n := String.length s in
  let m := String.length suf in
  (m <=? n)%nat && String.eqb (substring (n - m) m s) suf.

(** [s.endswith((suf1, suf2, ...))] *)
Definition endswith_any (s : string) (sufs : list string) : bool :=
  existsb (endswith s) sufs.

(** [x in {..}] for a set of strings *)
Definition mem (x : string) (l : list string) : bool :=
  existsb (String.eqb x) l.

(** [str(n)] for a non-negative integer *)
Definition str_of_nat (n : nat) : string :=
  NilEmpty.string_of_uint (Nat.to_uint n).

(** The components of a relative path written with [/]. *)
Fixpoint parts (s : string) : list string :=
  match s with
  | EmptyString => [EmptyString]
  | String c s' =>
      if Ascii.eqb c "/" then EmptyString :: parts s'
      else match parts s' with
           | [] => [String c EmptyString]
           | p :: ps => String c p :: ps
           end
  end.

Definition path_of (s : string) : list string :=
  filter (fun p => negb (String.eqb p "")) (parts s).

(** [str(Path(...))] of a relative path *)
Definition path_str (p : list string) : string := String.concat "/" p.

Definition hex_digit (n : nat) : ascii :=
  if (n <? 10)%nat then ascii_of_nat (48 + n) else ascii_of_nat (87 + n).

(** Characters of U+0080..U+00FF that [repr] escapes: the C1 controls,
    the no-break space and the soft hyphen. *)
Definition printable (c : ascii) : bool :=
  let n := nat_of_ascii c in
  negb ((n <? 32)%nat || ((127 <=? n)%nat && (n <=? 160)%nat) || (n =? 173)%nat).

Definition repr_char (quote c : ascii) : string :=
  let n := nat_of_ascii c in
  if Ascii.eqb c quote || Ascii.eqb c "\" then String "\" (String c EmptyString)
  else if (n =? 9)%nat then "\t"
  else if (n =? 10)%nat then "\n"
  else if (n =? 13)%nat then "\r"
  else if printable c then String c EmptyString
  else String "\" (String "x" (String (hex_digit (n / 16))
                                 (String (hex_digit (n mod 16)) EmptyString))).

Fixpoint repr_body (quote : ascii) (s : string) : string :=
  match s with
  | EmptyString => EmptyString
  | String c s' => (repr_char quote c ++ repr_body quote s')%string
  end.

(** [repr(s)]: single quotes unless [s] has a single quote and no double
    quote. *)
Definition repr (s : string) : string :=
  if contains sq s && negb (contains dq s)
  then (dq ++ repr_body (ascii_of_nat 34) s ++ dq)%string
  else (sq ++ repr_body (ascii_of_nat 39) s ++ sq)%string.

(** [str(l)] of a list of strings, as an f-string interpolates it *)
Definition repr_list (l : list string) : string :=
  ("[" ++ String.concat ", " (map repr l) ++ "]")%string.

(** UTF-8 bytes of a character, as [print] writes it *)
Definition utf8_char (c : ascii) : string :=
  let n := nat_of_ascii c in
  if (n <? 128)%nat then String c EmptyString
  else String (ascii_of_nat (192 + n / 64))
         (String (ascii_of_nat (128 + n mod 64)) EmptyString).

Fixpoint utf8 (s : string) : string :=
  match s with
  | EmptyString => EmptyString
  | String c s' => (utf8_char c ++ utf8 s')%string
  end.

Inductive exn :=
| UnicodeDecodeError
| PermissionError
| IsADirectoryError
| FileNotFoundError.

End Py.

(* ================================================================= *)
(** ** The fragment of [re] the validator's patterns are written in

    Every pattern of the program is a sequence of single-character
    classes, each under a greedy quantifier, with an optional
    [(?i)] flag. *)

Module Re.

Inductive cls :=
| Lit (c : ascii)             (* a literal character *)
| AlNum                       (* [a-zA-Z0-9] *)
| OneOf (cs : list ascii)     (* [...] *)
| NoneOf (cs : list ascii)    (* [^...] *)
| Space.                      (* \s *)

Record item := Item { cl : cls; lo : nat; hi : option nat }.

Record pattern := Pattern { icase : bool; items : list item }.

Definition between (a b : nat) (c : ascii) : bool :=
  (a <=? nat_of_ascii c)%nat && (nat_of_ascii c <=? b)%nat.

Definition lower (c : ascii) : ascii :=
  if between 65 90 c then ascii_of_nat (nat_of_ascii c + 32) else c.

Definition is_alnum (c : ascii) : bool :=
  between 48 57 c || between 65 90 c || between 97 122 c.

Definition is_space (c : ascii) : bool :=
  between 9 13 c || between 28 32 c
  || (nat_of_ascii c =? 133)%nat || (nat_of_ascii c =? 160)%nat.

Definition char_eq (ic : bool) (x c : ascii) : bool :=
  if ic then Ascii.eqb (lower x) (lower c) else Ascii.eqb x c.

Definition cls_matches (ic : bool) (k : cls) (x : ascii) : bool :=
  match k with
  | Lit c => char_eq ic x c
  | AlNum => is_alnum x
  | OneOf cs => existsb (char_eq ic x) cs
  | NoneOf cs => negb (existsb (char_eq ic x) cs)
  | Space => is_space x
  end.

(** The longest run a greedy quantifier takes first. *)
Fixpoint max_run (f : ascii -> bool) (hi : option nat) (s : list ascii) : nat :=
  match s with
  | [] => 0
  | c :: s' =>
      if f c then
        match hi with
        | Some 0 => 0
        | Some (S h) => S (max_run f (Some h) s')
        | None => S (max_run f None s')
        end
      else 0
  end.

(** Give back one character at a time, down to the lower bound. *)
Fixpoint backtrack (cont : list ascii -> option nat) (lo : nat)
         (s : list ascii) (j : nat) : option nat :=
  if (j <? lo)%nat then None
  else match cont (skipn j s) with
       | Some n => Some (j + n)
       | None => match j with
                 | 0 => None
                 | S j' => backtrack cont lo s j'
                 end
       end.

(** Length of the match the engine finds at the start of [s]. *)
Fixpoint match_here (ic : bool) (its : list item) (s : list ascii) : option nat :=
  match its with
  | [] => Some 0
  | it :: its' =>
      backtrack (match_here ic its') (lo it) s
                (max_run (cls_matches ic (cl it)) (hi it) s)
  end.

Fixpoint search_from (ic : bool) (its : list item) (s : list ascii) : bool :=
  match match_here ic its s with
  | Some _ => true
  | None => match s with
            | [] => false
            | _ :: s' => search_from ic its s'
            end
  end.

(** [pattern.search(content)] as a truth value *)
Definition search (p : pattern) (content : string) : bool :=
  search_from (icase p) (items p) (list_ascii_of_string content).

(** Leftmost non-overlapping matches; [skip] characters of the last
    match are still to be passed. *)
Fixpoint findall_from (ic : bool) (its : list item) (skip : nat)
         (s : list ascii) : list (list ascii) :=
  match skip with
  | S k => match s with
           | [] => []
           | _ :: s' => findall_from ic its k s'
           end
  | 0 =>
      match match_here ic its s with
      | Some n =>
          firstn n s :: match s with
                        | [] => []
                        | _ :: s' => findall_from ic its (pred n) s'
                        end
      | None => match s with
                | [] => []
                | _ :: s' => findall_from ic its 0 s'
                end
      end
  end.

(** [re.findall(pattern, content)] for a pattern without groups *)
Definition findall (p : pattern) (content : string) : list string :=
  map string_of_list_ascii
      (findall_from (icase p) (items p) 0 (list_ascii_of_string content)).

Definition one (k : cls) : item := Item k 1 (Some 1).
Definition lits (s : string) : list item :=
  map (fun c => one (Lit c)) (list_ascii_of_string s).
Definition exactly (n : nat) (k : cls) : item := Item k n (Some n).
Definition at_least (n : nat) (k : cls) : item := Item k n None.
Definition opt (k : cls) : item := Item k 0 (Some 1).

Definition quotes : list ascii := [ascii_of_nat 39; ascii_of_nat 34].

End Re.

(* ================================================================= *)
(** ** The repository tree and the validator's state *)

Module FS.

Inductive content :=
| Text (s : string)      (* decodes as text *)
| Undecodable            (* read_text raises UnicodeDecodeError *)
| Denied.                (* read_text raises PermissionError *)

(** A directory lists its entries in the order the system returns them. *)
Inductive node :=
| File (c : content)
| Dir (entries : list (string * node)).

Definition is_dir (n : node) : bool :=
  match n with Dir _ => true | File _ => false end.

(** The node a relative path denotes under [n], if any. *)
Fixpoint lookup (n : node) (p : list string) {struct p} : option node :=
  match p with
  | [] => Some n
  | x :: p' =>
      match n with
      | File _ => None
      | Dir es =>
          match find (fun e => String.eqb (fst e) x) es with
          | Some (_, c) => lookup c p'
          | None => None
          end
      end
  end.

(** What [os.walk] yields, top-down, when the loop body keeps in [dirs]
    the names satisfying [keep]: for every directory visited, its path,
    the kept subdirectory names and its non-directory entries. *)
Fixpoint os_walk (keep : string -> bool) (top : list string) (n : node)
  : list (list string * list string * list (string * node)) :=
  match n with
  | File _ => []
  | Dir es =>
      let dirs := filter (fun e => is_dir (snd e) && keep (fst e)) es in
      let files := filter (fun e => negb (is_dir (snd e))) es in
      (top, map fst dirs, files)
        :: (fix descend (l : list (string * node)) :=
              match l with
              | [] => []
              | (d, c) :: l' =>
                  (if is_dir c && keep d then os_walk keep (top ++ [d]) c else [])
                    ++ descend l'
              end) es
  end.

(** [Path.rglob("*" + suffix)]: in every directory, top-down, the entries
    whose name ends with the suffix, directories included. *)
Fixpoint rglob (suffix : string) (top : list string) (n : node)
  : list (list string * node) :=
  match n with
  | File _ => []
  | Dir es =>
      map (fun e => (top ++ [fst e], snd e))
          (filter (fun e => Py.endswith (fst e) suffix) es)
        ++ (fix descend (l : list (string * node)) :=
              match l with
              | [] => []
              | (d, c) :: l' => rglob suffix (top ++ [d]) c ++ descend l'
              end) es
  end.

End FS.

Module SDD.
Import Py FS.

(** The validator object's three lists, the tree it inspects and the
    lines it has printed. *)
Record state := State {
  fs : node;
  stdout : list string;
  errors : list string;
  warnings : list string;
  info : list string
}.

Inductive outcome (A : Type) :=
| Ret (a : A)
| Raise (e : exn).
Arguments Ret {A} a.
Arguments Raise {A} e.

(** A method body: it may change the state and either returns or raises. *)
Definition M (A : Type) : Type := state -> outcome A * state.

Definition ret {A} (a : A) : M A := fun st => (Ret a, st).

Definition raise {A} (e : exn) : M A := fun st => (Raise e, st).

Definition bind {A B} (m : M A) (k : A -> M B) : M B :=
  fun st =>
    match m st with
    | (Ret a, st') => k a st'
    | (Raise e, st') => (Raise e, st')
    end.

(** [try: m except <caught>: handler] *)
Definition try_except {A} (m : M A) (caught : exn -> bool) (handler : M A) : M A :=
  fun st =>
    match m st with
    | (Ret a, st') => (Ret a, st')
    | (Raise e, st') => if caught e then handler st' else (Raise e, st')
    end.

Declare Scope py_scope.
Delimit Scope py_scope with py.
Notation "x <- m ;; k" := (bind m (fun x => k))
  (at level 100, m at next level, right associativity) : py_scope.
Notation "m ;; k" := (bind m (fun _ => k))
  (at level 100, right associativity) : py_scope.
Local Open Scope py_scope.

(** [for x in l: acc = body(x, acc)], the loop's local variables being
    [acc]. *)
Fixpoint for_fold {A Acc} (l : list A) (acc : Acc) (body : A -> Acc -> M Acc) : M Acc :=
  match l with
  | [] => ret acc
  | x :: l' => acc' <- body x acc ;; for_fold l' acc' body
  end.

Definition for_each {A} (l : list A) (body : A -> M unit) : M unit :=
  for_fold l tt (fun x _ => body x).

Definition add_error (msg : string) : M unit :=
  fun st => (Ret tt, State (fs st) (stdout st) (errors st ++ [msg]) (warnings st) (info st)).

Definition add_warning (msg : string) : M unit :=
  fun st => (Ret tt, State (fs st) (stdout st) (errors st) (warnings st ++ [msg]) (info st)).

Definition add_info (msg : string) : M unit :=
  fun st => (Ret tt, State (fs st) (stdout st) (errors st) (warnings st) (info st ++ [msg])).

(** [print(bytes)]: one entry per call, the newline [print] adds left out. *)
Definition print (line : string) : M unit :=
  fun st => (Ret tt, State (fs st) (stdout st ++ [line]) (errors st) (warnings st) (info st)).

Definition get {A} (f : state -> A) : M A := fun st => (Ret (f st), st).

(** Whether the relative path [p] exists under [root]. *)
Definition present (root : node) (p : string) : bool :=
  match lookup root (path_of p) with
  | Some _ => true
  | None => false
  end.

(** The text of the file at [p], when there is a readable one. *)
Definition file_text (root : node) (p : string) : option string :=
  match lookup root (path_of p) with
  | Some (File (Text t)) => Some t
  | _ => None
  end.

(** [(self.repo_root / p).exists()] *)
Definition path_exists (p : string) : M bool :=
  fun st => (Ret (present (fs st) p), st).

(** [entry.read_text()] on a node already at hand *)
Definition read_node (n : node) : M string :=
  match n with
  | File (Text s) => ret s
  | File Undecodable => raise UnicodeDecodeError
  | File Denied => raise PermissionError
  | Dir _ => raise IsADirectoryError
  end.

(** [(self.repo_root / p).read_text()] *)
Definition read_text (p : string) : M string :=
  fun st =>
    match lookup (fs st) (path_of p) with
    | Some n => read_node n st
    | None => (Raise FileNotFoundError, st)
    end.

(** The state after more findings and output lines were appended. *)
Definition emit (e w i o : list string) (st : state) : state :=
  State (fs st) (stdout st ++ o) (errors st ++ e) (warnings st ++ w) (info st ++ i).

Definition nonempty {A} (l : list A) : bool :=
  match l with [] => false | _ => true end.

(** *** The checks of [SDDValidator], in the order of the source *)

Definition required_dirs : list string :=
  [ "dev-docs/sdd"; "dev-docs/agents"; "dev-docs/git"; "dev-docs/cli";
    "specs"; "templates"; "templates/commands"; "scripts"; "scripts/sdd";
    "tests"; ".github/workflows" ].

Definition check_directory_structure : M bool :=
  missing <- for_fold required_dirs [] (fun dir_path missing =>
    e <- path_exists dir_path ;;
    if negb e then
      (add_error ("Missing required directory: " ++ dir_path) ;;
       ret (missing ++ [dir_path]))
    else ret missing) ;;
  (if nonempty missing then
     add_info ("Found " ++ str_of_nat (List.length required_dirs - List.length missing)
                ++ "/" ++ str_of_nat (List.length required_dirs)
                ++ " required directories")
   else add_info "All required directories present") ;;
  ret (List.length missing =? 0)%nat.

Definition required_files : list (string * list string) :=
  [ ("dev-docs/sdd/constitution.md",
      ["Core Principles"; "Development Gates"; "Version"]);
    ("dev-docs/sdd/constitution_update_checklist.md",
      ["Pre-Amendment"; "Post-Amendment"]);
    ("dev-docs/sdd/lifecycle.md",
      ["Lifecycle Phases"; "Enforcement"; "Traceability"]) ].

Definition check_governance_files : M bool :=
  for_fold required_files true (fun '(file_path, required_sections) all_valid =>
    e <- path_exists file_path ;;
    if negb e then
      (add_error ("Missing governance file: " ++ file_path) ;;
       ret false)
    else
      content <- read_text file_path ;;
      for_fold required_sections all_valid (fun section all_valid =>
        if negb (contains section content) then
          (add_warning ("Missing section '" ++ section ++ "' in " ++ file_path) ;;
           ret false)
        else ret all_valid)).

Definition contexts : list string :=
  [ "dev-docs/sdd/CLAUDE.md"; "dev-docs/sdd/AGENTS.md";
    "dev-docs/cli/CLAUDE.md"; "dev-docs/cli/AGENTS.md" ].

Definition check_agent_contexts : M bool :=
  for_fold contexts true (fun context_file all_valid =>
    e <- path_exists context_file ;;
    if negb e then
      (add_error ("Missing agent context: " ++ context_file) ;;
       ret false)
    else
      content <- read_text context_file ;;
      (if endswith context_file "CLAUDE.md" then
         for_each ["## Role"; "## Allowed Tools"; "## Safety Boundaries"]
           (fun section =>
              if negb (contains section content) then
                add_warning ("Missing section '" ++ section ++ "' in " ++ context_file)
              else ret tt)
       else ret tt) ;;
      (if endswith context_file "AGENTS.md" then
         if negb (contains "## Supported Agents" content) then
           add_warning ("Missing 'Supported Agents' section in " ++ context_file)
         else ret tt
       else ret tt) ;;
      ret all_valid).

(** The pattern \[NEEDS CLARIFICATION[^\]]*\] *)
Definition clarification_re : Re.pattern :=
  Re.Pattern false
    (Re.lits "[NEEDS CLARIFICATION" ++ [Re.at_least 0 (Re.NoneOf ["]"%char]); Re.one (Re.Lit "]")]).

(** The pattern \[PLACEHOLDER[^\]]*\] *)
Definition placeholder_re : Re.pattern :=
  Re.Pattern false
    (Re.lits "[PLACEHOLDER" ++ [Re.at_least 0 (Re.NoneOf ["]"%char]); Re.one (Re.Lit "]")]).

Definition check_specifications : M bool :=
  specs_dir <- get (fun st => lookup (fs st) (path_of "specs")) ;;
  match specs_dir with
  | None =>
      add_info "No specs directory yet (expected for new repo)" ;;
      ret true
  | Some specs_dir =>
      issues_found <- for_fold (rglob ".md" (path_of "specs") specs_dir) false
        (fun '(spec_file, entry) issues_found =>
           content <- read_node entry ;;
           let clarifications := Re.findall clarification_re content in
           issues_found <-
             (if nonempty clarifications then
                (add_error ("Unresolved clarifications in " ++ path_str spec_file
                              ++ ": " ++ repr_list clarifications) ;;
                 ret true)
              else ret issues_found) ;;
           let placeholders := Re.findall placeholder_re content in
           (if nonempty placeholders then
              add_warning ("Placeholders in " ++ path_str spec_file
                             ++ ": " ++ repr_list placeholders)
            else ret tt) ;;
           ret issues_found) ;;
      ret (negb issues_found)
  end.

Definition check_task_traceability : M bool :=
  e <- path_exists ".git" ;;
  if negb e then
    (add_info "Not a git repository - skipping commit checks" ;;
     ret true)
  else
    (add_info "Task ID and commit patterns defined and valid" ;;
     ret true).

Definition required_docs : list string := ["README.md"; "LICENSE"; "CONTRIBUTING.md"].

Definition check_documentation : M bool :=
  missing <- for_fold required_docs [] (fun doc missing =>
    e <- path_exists doc ;;
    if negb e then
      (add_warning ("Missing documentation: " ++ doc) ;;
       ret (missing ++ [doc]))
    else ret missing) ;;
  e <- path_exists "CHANGELOG.md" ;;
  (if negb e then add_info "CHANGELOG.md not found (will be created)" else ret tt) ;;
  ret (List.length missing =? 0)%nat.

(** The pattern table of [check_security], pattern and label. *)
Definition secret_patterns : list (Re.pattern * string) :=
  [ (* ghp_[a-zA-Z0-9]{36} *)
    (Re.Pattern false (Re.lits "ghp_" ++ [Re.exactly 36 Re.AlNum]), "GitHub token");
    (* sk-[a-zA-Z0-9]{48} *)
    (Re.Pattern false (Re.lits "sk-" ++ [Re.exactly 48 Re.AlNum]), "OpenAI key");
    (* (?i)api[_-]?key\s*=\s*[Q][a-zA-Z0-9]{10,}[Q], Q the two quote characters *)
    (Re.Pattern true
       (Re.lits "api" ++ [Re.opt (Re.OneOf ["_"; "-"]%char)] ++ Re.lits "key"
          ++ [Re.at_least 0 Re.Space; Re.one (Re.Lit "="); Re.at_least 0 Re.Space;
              Re.one (Re.OneOf Re.quotes); Re.at_least 10 Re.AlNum;
              Re.one (Re.OneOf Re.quotes)]), "API key");
    (* (?i)password\s*=\s*[Q][^Q]+[Q], Q the two quote characters *)
    (Re.Pattern true
       (Re.lits "password"
          ++ [Re.at_least 0 Re.Space; Re.one (Re.Lit "="); Re.at_least 0 Re.Space;
              Re.one (Re.OneOf Re.quotes); Re.at_least 1 (Re.NoneOf Re.quotes);
              Re.one (Re.OneOf Re.quotes)]), "Password") ].

Definition exclude_dirs : list string :=
  [".git"; "venv"; "node_modules"; "__pycache__"; ".pytest_cache"].

Definition exclude_files : list string :=
  ["validate_structure.py"; "test_sdd_validation.py"; "mcp.md"].

Definition text_suffixes : list string :=
  [".py"; ".yml"; ".yaml"; ".json"; ".md"; ".sh"; ".txt"].

Definition read_failure (e : exn) : bool :=
  match e with
  | UnicodeDecodeError | PermissionError => true
  | _ => false
  end.

Definition check_security : M bool :=
  root <- get fs ;;
  issues_found <-
    for_fold (os_walk (fun d => negb (mem d exclude_dirs)) [] root) false
      (fun '(top, dirs, files) issues_found =>
         for_fold files issues_found (fun '(file, entry) issues_found =>
           if mem file exclude_files then ret issues_found
           else
             let file_path := top ++ [file] in
             if endswith_any file text_suffixes then
               try_except
                 (content <- read_node entry ;;
                  for_fold secret_patterns issues_found (fun '(pattern, desc) issues_found =>
                    if Re.search pattern content then
                      (add_error ("Potential " ++ desc ++ " in " ++ path_str file_path) ;;
                       ret true)
                    else ret issues_found))
                 read_failure
                 (ret issues_found)
             else ret issues_found)) ;;
  (if negb issues_found then add_info "No hardcoded secrets detected" else ret tt) ;;
  ret (negb issues_found).

Definition rule : string := "============================================================".

Definition print_summary : M unit :=
  print rule ;;
  print "VALIDATION SUMMARY" ;;
  print rule ;;
  errs <- get errors ;;
  warns <- get warnings ;;
  infos <- get info ;;
  (if nonempty errs then
     (print (nl ++ "❌ ERRORS (" ++ str_of_nat (List.length errs) ++ "):") ;;
      for_each errs (fun error => print ("  - " ++ utf8 error)))
   else ret tt) ;;
  (if nonempty warns then
     (print (nl ++ "⚠️  WARNINGS (" ++ str_of_nat (List.length warns) ++ "):") ;;
      for_each warns (fun warning => print ("  - " ++ utf8 warning)))
   else ret tt) ;;
  (if nonempty infos then
     (print (nl ++ "ℹ️  INFO (" ++ str_of_nat (List.length infos) ++ "):") ;;
      for_each infos (fun i => print ("  - " ++ utf8 i)))
   else ret tt) ;;
  (if negb (nonempty errs) && negb (nonempty warns) then
     print (nl ++ "✅ All SDD structure validations passed!")
   else if negb (nonempty errs) then
     print (nl ++ "⚠️  Validation passed with warnings")
   else
     print (nl ++ "❌ Validation failed - please fix errors")) ;;
  print rule.

Definition checks : list (string * M bool) :=
  [ ("Directory Structure", check_directory_structure);
    ("Governance Files", check_governance_files);
    ("Agent Context Files", check_agent_contexts);
    ("Specification Files", check_specifications);
    ("Task Traceability", check_task_traceability);
    ("Documentation Standards", check_documentation);
    ("Security Checks", check_security) ].

Definition validate_all : M bool :=
  print ("🔍 Starting SDD Structure Validation..." ++ nl) ;;
  all_passed <- for_fold checks true (fun '(check_name, check_func) all_passed =>
    print ("Checking " ++ check_name ++ "...") ;;
    passed <- check_func ;;
    let status := if passed then "✅ PASS" else "❌ FAIL" in
    print ("  " ++ status ++ nl) ;;
    ret (all_passed && passed)) ;;
  print_summary ;;
  ret all_passed.

(** What outlives a run: the tree and the terminal. *)
Record world := World { w_fs : node; w_stdout : list string }.

(** [SDDValidator(repo_root)] *)
Definition new_validator (w : world) : state :=
  State (w_fs w) (w_stdout w) [] [] [].

Definition world_of (st : state) : world := World (fs st) (stdout st).

(** [main()]: the exit status and the world it leaves.  An exception
    that reaches the top level ends the process with status 1. *)
Definition main (w : world) : nat * world :=
  match validate_all (new_validator w) with
  | (Ret success, st) =>
      ((if negb success then 1
        else if nonempty (warnings st) then 0
        else 0), world_of st)
  | (Raise _, st) => (1, world_of st)
  end.

End SDD.

(* ================================================================= *)
(** ** What the checks compute, as functions of the tree *)

Module Directories.
Import Py FS SDD.

Definition missing_dirs (root : node) : list string :=
  filter (fun d => negb (present root d)) required_dirs.

Definition dir_error (d : string) : string := "Missing required directory: " ++ d.

Definition dir_summary (missing : list string) : string :=
  if nonempty missing then
    "Found " ++ str_of_nat (List.length required_dirs - List.length missing)
      ++ "/" ++ str_of_nat (List.length required_dirs) ++ " required directories"
  else "All required directories present".

End Directories.

(* ================================================================= *)
(** ** Sample repositories *)

Module Samples.
Import Py FS.

Definition txt (s : string) : node := File (Text s).

Definition constitution : string :=
  "# Constitution: Core Principles, Development Gates, Version 1".
Definition checklist : string := "Pre-Amendment and Post-Amendment steps".
Definition lifecycle : string := "Lifecycle Phases, Enforcement, Traceability".
Definition claude_md : string := "## Role ## Allowed Tools ## Safety Boundaries".
Definition agents_md : string := "## Supported Agents".

Definition sdd_docs (c : node) : list (string * node) :=
  [ ("constitution.md", c);
    ("constitution_update_checklist.md", txt checklist);
    ("lifecycle.md", txt lifecycle);
    ("CLAUDE.md", txt claude_md);
    ("AGENTS.md", txt agents_md) ].

(** Every required directory, governance file and agent context, with
    [c] as the constitution, [specs] as the entries of the specs
    directory and [extra] as further entries of the root. *)
Definition layout (c : node) (specs extra : list (string * node)) : node :=
  Dir ([ ("dev-docs", Dir [ ("sdd", Dir (sdd_docs c));
                            ("agents", Dir []);
                            ("git", Dir []);
                            ("cli", Dir [ ("CLAUDE.md", txt claude_md);
                                          ("AGENTS.md", txt agents_md) ]) ]);
         ("specs", Dir specs);
         ("templates", Dir [ ("commands", Dir []) ]);
         ("scripts", Dir [ ("sdd", Dir []) ]);
         ("tests", Dir []);
         (".github", Dir [ ("workflows", Dir []) ]) ] ++ extra).

Definition docs : list (string * node) :=
  [ ("README.md", txt "readme"); ("LICENSE", txt "MIT");
    ("CONTRIBUTING.md", txt "how to contribute") ].

(** A repository that passes every check. *)
Definition repo_clean : node := layout (txt constitution) [] docs.

(** The same without [README.md]: one warning, no error. *)
Definition repo_no_readme : node :=
  layout (txt constitution) []
         [ ("LICENSE", txt "MIT"); ("CONTRIBUTING.md", txt "how to contribute") ].

(** The constitution exists but is not text. *)
Definition repo_binary_constitution : node := layout (File Undecodable) [] docs.

(** A specification file that is not text. *)
Definition repo_binary_spec : node :=
  layout (txt constitution) [ ("feature.md", File Undecodable) ] docs.

(** The constitution lacks its version section. *)
Definition repo_short_constitution : node :=
  layout (txt "Core Principles, Development Gates") [] docs.

Definition password_line : string := "password = " ++ dq ++ "hunter2" ++ dq.

(** Only [config.yml], holding a password assignment. *)
Definition repo_config : node := Dir [ ("config.yml", txt password_line) ].

(** The four agent-context files, all empty. *)
Definition repo_empty_contexts : node :=
  Dir [ ("dev-docs",
         Dir [ ("sdd", Dir [ ("CLAUDE.md", txt ""); ("AGENTS.md", txt "") ]);
               ("cli", Dir [ ("CLAUDE.md", txt ""); ("AGENTS.md", txt "") ]) ]) ].

(** Specification files with a clarification marker, with a placeholder,
    and a text file the scanner does not match. *)
Definition repo_specs : node :=
  Dir [ ("specs",
         Dir [ ("feature.md", txt "Intro [NEEDS CLARIFICATION: foo] end");
               ("notes.txt", txt "[NEEDS CLARIFICATION: not scanned]");
               ("drafts", Dir [ ("plan.md", txt "[PLACEHOLDER: bar]") ]) ]) ].

(** A specification file with a placeholder only. *)
Definition repo_placeholder : node :=
  Dir [ ("specs", Dir [ ("plan.md", txt "[PLACEHOLDER: bar]") ]) ].

Definition token : string := "ghp_" ++ "0123456789abcdefghijABCDEFGHIJklmnop".

(** A token in a scanned file and the same text under [node_modules]. *)
Definition repo_token : node :=
  Dir [ ("notes.md", txt ("token: " ++ token));
        ("node_modules",
         Dir [ ("pkg", Dir [ ("fixture.md", txt ("token: " ++ token)) ]) ]) ].



End Samples.

Module Governance.
Import Py FS SDD.

Definition gov_error (f : string) : string := "Missing governance file: " ++ f.

Definition gov_warning (f s : string) : string :=
  "Missing section '" ++ s ++ "' in " ++ f.

Definition absent_files (root : node) (table : list (string * list string)) : list string :=
  filter (fun f => negb (present root f)) (map fst table).

(** The required sections of [f] that its text lacks; none when [f] has
    no readable text. *)
Definition missing_sections (root : node) (f : string) (secs : list string) : list string :=
  match file_text root f with
  | Some t => filter (fun s => negb (contains s t)) secs
  | None => []
  end.

Definition gov_warnings (root : node) (table : list (string * list string)) : list string :=
  flat_map (fun e => map (gov_warning (fst e)) (missing_sections root (fst e) (snd e))) table.

Definition gov_valid (root : node) (table : list (string * list string)) : bool :=
  forallb (fun e => match file_text root (fst e) with
                    | Some t => forallb (fun s => contains s t) (snd e)
                    | None => false
                    end) table.

(** The warnings of a repository where every section is missing. *)
Definition all_gov_warnings : list string :=
  flat_map (fun e => map (gov_warning (fst e)) (snd e)) required_files.

(** Every file of the table that exists is a readable text file. *)
Definition readable (root : node) (table : list (string * list string)) : Prop :=
  forall f secs, In (f, secs) table -> present root f = true ->
                 exists t, file_text root f = Some t.

End Governance.

(** [sublist l l']: [l] is [l'] with some elements left out. *)
Inductive sublist {A : Type} : list A -> list A -> Prop :=
| sublist_nil : sublist [] []
| sublist_skip x l l' : sublist l l' -> sublist l (x :: l')
| sublist_keep x l l' : sublist l l' -> sublist (x :: l) (x :: l').

Module Agents.
Import Py FS SDD.

Definition ctx_error (f : string) : string := "Missing agent context: " ++ f.

(** The warnings the agent-context check emits for the file [f] with text [t]. *)
Definition ctx_warnings (f t : string) : list string :=
  (if endswith f "CLAUDE.md" then
     map (fun s => "Missing section '" ++ s ++ "' in " ++ f)%string
         (filter (fun s => negb (contains s t))
                 ["## Role"; "## Allowed Tools"; "## Safety Boundaries"])
   else [])
  ++ (if endswith f "AGENTS.md" then
        if negb (contains "## Supported Agents" t)
        then ["Missing 'Supported Agents' section in " ++ f]%string
        else []
      else []).

Definition all_ctx_warnings (root : node) (l : list string) : list string :=
  flat_map (fun f => match file_text root f with
                     | Some t => ctx_warnings f t
                     | None => []
                     end) l.

Definition absent_contexts (root : node) (l : list string) : list string :=
  filter (fun f => negb (present root f)) l.

(** Every context file of [l] that exists is a readable text file. *)
Definition readable (root : node) (l : list string) : Prop :=
  forall f, In f l -> present root f = true -> exists t, file_text root f = Some t.

End Agents.

(* ================================================================= *)
(** ** The result sink seen from outside a check *)

Module Sink.
Import Py FS SDD.

(** A validator on [root] that has recorded and printed nothing. *)
Definition fresh (root : node) : state := State root [] [] [] [].

(** [st] after the findings and output held by [d] were appended to it. *)
Definition replay (d st : state) : state :=
  emit (errors d) (warnings d) (info d) (stdout d) st.

(** [m] does not look at the sink: on any state it does what it does on a
    fresh validator over the same tree, appending to what is there. *)
Definition uniform {A} (m : M A) : Prop :=
  forall st, m st = (fst (m (fresh (fs st))), replay (snd (m (fresh (fs st)))) st).

(** [st] with the lines [o] printed before everything else. *)
Definition after_output (o : list string) (st : state) : state :=
  State (fs st) (o ++ stdout st) (errors st) (warnings st) (info st).

(** [m] does not look at what was printed before. *)
Definition output_blind {A} (m : M A) : Prop :=
  forall o st, m (after_output o st) = (fst (m st), after_output o (snd (m st))).

(** The checks of [cs] that get to run: all up to the first that raises. *)
Fixpoint ran (root : node) (cs : list (string * M bool)) : list (string * M bool) :=
  match cs with
  | [] => []
  | c :: cs' =>
      c :: match fst (snd c (fresh root)) with
           | Ret _ => ran root cs'
           | Raise _ => []
           end
  end.

Inductive kind := Errors | Warnings | Info.

Definition listing (k : kind) (st : state) : list string :=
  match k with
  | Errors => errors st
  | Warnings => warnings st
  | Info => info st
  end.

(** What a check finds when run alone on a fresh validator. *)
Definition found (k : kind) (root : node) (c : string * M bool) : list string :=
  listing k (snd (snd c (fresh root))).

(** The lines [print_summary] writes for the given lists. *)
Definition summary_lines (errs warns infos : list string) : list string :=
  [rule; "VALIDATION SUMMARY"; rule]
  ++ (if nonempty errs then
        (nl ++ "❌ ERRORS (" ++ str_of_nat (List.length errs) ++ "):")%string
          :: map (fun error => "  - " ++ utf8 error)%string errs
      else [])
  ++ (if nonempty warns then
        (nl ++ "⚠️  WARNINGS (" ++ str_of_nat (List.length warns) ++ "):")%string
          :: map (fun warning => "  - " ++ utf8 warning)%string warns
      else [])
  ++ (if nonempty infos then
        (nl ++ "ℹ️  INFO (" ++ str_of_nat (List.length infos) ++ "):")%string
          :: map (fun i => "  - " ++ utf8 i)%string infos
      else [])
  ++ [ if negb (nonempty errs) && negb (nonempty warns) then
         (nl ++ "✅ All SDD structure validations passed!")%string
       else if negb (nonempty errs) then
         (nl ++ "⚠️  Validation passed with warnings")%string
       else
         (nl ++ "❌ Validation failed - please fix errors")%string ]
  ++ [rule].

(** The part of [validate_all] before the summary. *)
Definition run_checks : M bool :=
  bind (print ("🔍 Starting SDD Structure Validation..." ++ nl))
       (fun _ =>
          for_fold checks true (fun '(check_name, check_func) all_passed =>
            bind (print ("Checking " ++ check_name ++ "..."))
                 (fun _ => bind check_func (fun passed =>
                    let status := if passed then "✅ PASS" else "❌ FAIL" in
                    bind (print ("  " ++ status ++ nl))
                         (fun _ => ret (all_passed && passed)))))).

(** A check that returned true left the error list as it was. *)
Definition quiet (c : M bool) : Prop :=
  forall st, fst (c st) = Ret true -> errors (snd (c st)) = errors st.

End Sink.

Module Run.
Import Py FS SDD Sink.

(** What a whole run prints on [root], as a function of the tree alone. *)
Definition printed (root : node) : list string :=
  let r := run_checks (fresh root) in
  stdout (snd r)
  ++ match fst r with
     | Ret _ => summary_lines (errors (snd r)) (warnings (snd r)) (info (snd r))
     | Raise _ => []
     end.

End Run.

(* ================================================================= *)
(** ** What a pattern denotes *)

Module ReSpec.
Import Re.

(** The characters of a text. *)
Definition chars (s : string) : list ascii := list_ascii_of_string s.

Definition within (hi : option nat) (n : nat) : Prop :=
  match hi with
  | Some h => n <= h
  | None => True
  end.

(** [tok] is a run of each item's class in turn, each run's length within
    the item's bounds. *)
Fixpoint denote (ic : bool) (its : list item) (tok : list ascii) : Prop :=
  match its with
  | [] => tok = []
  | it :: its' =>
      exists run rest,
        tok = run ++ rest
        /\ lo it <= List.length run
        /\ within (hi it) (List.length run)
        /\ Forall (fun c => cls_matches ic (cl it) c = true) run
        /\ denote ic its' rest
  end.

(** [tok] occurs in [s]. *)
Definition occurs_in (tok s : list ascii) : Prop :=
  exists pre post, s = pre ++ tok ++ post.

(** Some token of the pattern occurs in the text. *)
Definition has_match (p : pattern) (content : string) : Prop :=
  exists tok, denote (icase p) (items p) tok /\ occurs_in tok (chars content).

End ReSpec.

(* ================================================================= *)
(** ** Paths in the tree *)

Module Tree.
Import FS.

(** [at_path d q n]: following the names [q] from [d] leads to [n]. *)
Inductive at_path : node -> list string -> node -> Prop :=
| at_here n : at_path n [] n
| at_step es x c q n : In (x, c) es -> at_path c q n -> at_path (Dir es) (x :: q) n.

End Tree.

Module Specs.
Import Py FS SDD Re ReSpec.

(** A bracketed marker: the tag, any characters but the closing bracket,
    then the closing bracket. *)
Definition marker (tag : string) (tok : list ascii) : Prop :=
  exists body,
    tok = chars tag ++ body ++ chars "]"
    /\ Forall (fun c => c <> "]"%char) body.

Definition text_of (n : node) : string :=
  match n with
  | File (Text t) => t
  | _ => ""
  end.

Definition is_text (n : node) : Prop := exists t, n = File (Text t).

(** The entries the specification scanner visits, in order. *)
Definition md_entries (root : node) : list (list string * node) :=
  match lookup root (path_of "specs") with
  | Some d => rglob ".md" (path_of "specs") d
  | None => []
  end.

Definition clarifications (e : list string * node) : list string :=
  findall clarification_re (text_of (snd e)).

Definition placeholders (e : list string * node) : list string :=
  findall placeholder_re (text_of (snd e)).

Definition clar_errors (l : list (list string * node)) : list string :=
  flat_map (fun e =>
    if nonempty (clarifications e) then
      ["Unresolved clarifications in " ++ path_str (fst e) ++ ": "
         ++ repr_list (clarifications e)]%string
    else []) l.

Definition placeholder_warnings (l : list (list string * node)) : list string :=
  flat_map (fun e =>
    if nonempty (placeholders e) then
      ["Placeholders in " ++ path_str (fst e) ++ ": "
         ++ repr_list (placeholders e)]%string
    else []) l.

Definition has_clarification (l : list (list string * node)) : bool :=
  existsb (fun e => nonempty (clarifications e)) l.

End Specs.

Module Secrets.
Import Py FS SDD Re ReSpec.

(** The loop body's pruning of [dirs]. *)
Definition keep (d : string) : bool := negb (mem d exclude_dirs).

(** A file name the scanner reads: not excluded, with a text suffix. *)
Definition eligible (name : string) : bool :=
  negb (mem name exclude_files) && endswith_any name text_suffixes.

(** The files the scanner reads, with their paths, in the order of the walk. *)
Definition scanned (root : node) : list (list string * node) :=
  flat_map (fun y =>
              map (fun e => (fst (fst y) ++ [fst e], snd e))
                  (filter (fun e => eligible (fst e)) (snd y)))
           (os_walk keep [] root).

Definition secret_error (desc : string) (p : list string) : string :=
  "Potential " ++ desc ++ " in " ++ path_str p.

(** The errors one scanned file gives rise to: one per matching pattern,
    none when the file cannot be read. *)
Definition hits (e : list string * node) : list string :=
  match snd e with
  | File (Text t) =>
      map (fun pd => secret_error (snd pd) (fst e))
          (filter (fun pd => search (fst pd) t) secret_patterns)
  | _ => []
  end.

Definition secret_errors (root : node) : list string := flat_map hits (scanned root).



End Secrets.

(* ================================================================= *)
(** ** The four shapes of secrets, in words *)

Module Shapes.
Import Py Re ReSpec.

Definition quote (c : ascii) : Prop := c = ascii_of_nat 39 \/ c = ascii_of_nat 34.











End Shapes.

Module Docs.
Import Py FS SDD.

Definition missing_docs (root : node) : list string :=
  filter (fun d => negb (present root d)) required_docs.

Definition doc_warning (d : string) : string := "Missing documentation: " ++ d.

(** The note about the changelog, when there is none. *)
Definition changelog_note (root : node) : list string :=
  if present root "CHANGELOG.md" then []
  else ["CHANGELOG.md not found (will be created)"].

End Docs.

Module Trace.
Import Py FS SDD Sink.

(** [m] prints nothing. *)
Definition silent {A} (m : M A) : Prop :=
  forall st, stdout (snd (m st)) = stdout st.

(** The result of the loop over the check table, from what each check
    does alone on a fresh validator: the conjunction of the results, or
    the first exception. *)
Fixpoint loop_outcome (root : node) (cs : list (string * M bool)) (acc : bool)
  : outcome bool :=
  match cs with
  | [] => Ret acc
  | c :: cs' =>
      match fst (snd c (fresh root)) with
      | Ret passed => loop_outcome root cs' (acc && passed)
      | Raise e => Raise e
      end
  end.

Definition status_line (passed : bool) : string :=
  "  " ++ (if passed then "✅ PASS" else "❌ FAIL") ++ nl.

(** The lines printed for one check: its name, then its result if it
    returned. *)
Definition check_lines (root : node) (c : string * M bool) : list string :=
  ("Checking " ++ fst c ++ "...")%string
    :: match fst (snd c (fresh root)) with
       | Ret passed => [status_line passed]
       | Raise _ => []
       end.

Definition progress (root : node) (cs : list (string * M bool)) : list string :=
  flat_map (check_lines root) (ran root cs).

Definition banner : string := "🔍 Starting SDD Structure Validation..." ++ nl.

(** Whether a check, run alone on a fresh validator, returns true. *)
Definition passed_alone (root : node) (c : string * M bool) : bool :=
  match fst (snd c (fresh root)) with
  | Ret passed => passed
  | Raise _ => false
  end.

(** A check that returns false has recorded an error or a warning. *)
Definition loud (c : M bool) : Prop :=
  forall root,
    fst (c (fresh root)) = Ret false ->
    errors (snd (c (fresh root))) <> [] \/ warnings (snd (c (fresh root))) <> [].

(** Something was recorded as an error or a warning. *)
Definition noisy (st : state) : bool :=
  nonempty (errors st) || nonempty (warnings st).

End Trace.

Module Verdict.
Import Py FS SDD Directories Governance Agents Specs Docs Secrets.



End Verdict.

Module Summary.
Import Py FS SDD Sink.

(** The closing line of the summary. *)
Definition verdict (errs warns : list string) : string :=
  match errs, warns with
  | [], [] => nl ++ "✅ All SDD structure validations passed!"
  | [], _ :: _ => nl ++ "⚠️  Validation passed with warnings"
  | _ :: _, _ => nl ++ "❌ Validation failed - please fix errors"
  end.

(** The number of lines of a block: none for an empty list, a heading and
    one bullet per entry otherwise. *)
Definition block_size (l : list string) : nat :=
  match l with
  | [] => 0
  | _ :: _ => S (List.length l)
  end.

Definition bullet (s : string) : string := "  - " ++ utf8 s.

End Summary.

Module Failures.
Import Py FS.

(** The exception [read_text] raises on a node, if it raises. *)
Definition read_error (n : node) : option exn :=
  match n with
  | File (Text _) => None
  | File Undecodable => Some UnicodeDecodeError
  | File Denied => Some PermissionError
  | Dir _ => Some IsADirectoryError
  end.

(** A specification with a marker, then one that may not be read, then
    another with a marker. *)
Definition repo_denied_spec : node :=
  Dir [ ("specs",
         Dir [ ("a.md", File (Text "[NEEDS CLARIFICATION: scope]"));
               ("b.md", File Denied);
               ("c.md", File (Text "[NEEDS CLARIFICATION: never reached]")) ]) ].

(** No constitution, and a checklist that is not text. *)
Definition repo_binary_checklist : node :=
  Dir [ ("dev-docs",
         Dir [ ("sdd", Dir [ ("constitution_update_checklist.md", File Undecodable) ]) ]) ].

(** [specs] is a regular file. *)
Definition repo_specs_file : node := Dir [ ("specs", File (Text "not a directory")) ].

(** A constitution that is not text, a checklist that has none of its
    sections, and no lifecycle document. *)
Definition repo_binary_constitution_only : node :=
  Dir [ ("dev-docs",
         Dir [ ("sdd", Dir [ ("constitution.md", File Undecodable);
                             ("constitution_update_checklist.md", File (Text "empty")) ]) ]) ].

(** A specification that is not text, listed before one with a marker. *)
Definition repo_binary_then_marker : node :=
  Dir [ ("specs", Dir [ ("a.md", File Undecodable);
                        ("b.md", File (Text "[NEEDS CLARIFICATION: foo]")) ]) ].

(** The same two specifications listed the other way round. *)
Definition repo_marker_then_binary : node :=
  Dir [ ("specs", Dir [ ("b.md", File (Text "[NEEDS CLARIFICATION: foo]"));
                        ("a.md", File Undecodable) ]) ].

(** The four agent-context files, the first of them not text. *)
Definition repo_binary_context : node :=
  Dir [ ("dev-docs",
         Dir [ ("sdd", Dir [ ("CLAUDE.md", File Undecodable);
                             ("AGENTS.md", File (Text "")) ]);
               ("cli", Dir [ ("CLAUDE.md", File (Text ""));
                             ("AGENTS.md", File (Text "")) ]) ]) ].

End Failures.

(* ================================================================= *)
(** * Properties *)

Section Monad_facts.
Import Py FS SDD.

Lemma emit_nil (st : state) : emit [] [] [] [] st = st.
Proof. destruct st; unfold emit; simpl; now rewrite !app_nil_r. Qed.

Lemma emit_emit e1 w1 i1 o1 e2 w2 i2 o2 (st : state) :
  emit e2 w2 i2 o2 (emit e1 w1 i1 o1 st)
  = emit (e1 ++ e2) (w1 ++ w2) (i1 ++ i2) (o1 ++ o2) st.
Proof. unfold emit; simpl; now rewrite !app_assoc. Qed.

Lemma fs_emit e w i o (st : state) : fs (emit e w i o st) = fs st.
Proof. reflexivity. Qed.

Lemma add_error_emit m st : add_error m st = (Ret tt, emit [m] [] [] [] st).
Proof. destruct st; unfold add_error, emit; simpl; now rewrite !app_nil_r. Qed.

Lemma add_warning_emit m st : add_warning m st = (Ret tt, emit [] [m] [] [] st).
Proof. destruct st; unfold add_warning, emit; simpl; now rewrite !app_nil_r. Qed.

Lemma add_info_emit m st : add_info m st = (Ret tt, emit [] [] [m] [] st).
Proof. destruct st; unfold add_info, emit; simpl; now rewrite !app_nil_r. Qed.

Lemma print_emit m st : print m st = (Ret tt, emit [] [] [] [m] st).
Proof. destruct st; unfold print, emit; simpl; now rewrite !app_nil_r. Qed.

Lemma bind_ret_eq {A B} (m : M A) (k : A -> M B) st a st' :
  m st = (Ret a, st') -> bind m k st = k a st'.
Proof. unfold bind; now intros ->. Qed.

Lemma bind_raise_eq {A B} (m : M A) (k : A -> M B) st e st' :
  m st = (Raise e, st') -> bind m k st = (Raise e, st').
Proof. unfold bind; now intros ->. Qed.

Lemma bind_eq {A B} (m : M A) (k : A -> M B) st :
  bind m k st = match m st with
                | (Ret a, st') => k a st'
                | (Raise e, st') => (Raise e, st')
                end.
Proof. reflexivity. Qed.

Lemma for_fold_cons {A Acc} (x : A) l (acc : Acc) body st :
  for_fold (x :: l) acc body st
  = bind (body x acc) (fun acc' => for_fold l acc' body) st.
Proof. reflexivity. Qed.

End Monad_facts.

Section Directory_check.
Import Py FS SDD Directories.

Lemma directory_loop (l : list string) : forall acc st,
  for_fold l acc (fun dir_path missing =>
    bind (path_exists dir_path) (fun e =>
      if negb e then
        bind (add_error ("Missing required directory: " ++ dir_path))
             (fun _ => ret (missing ++ [dir_path]))
      else ret missing)) st
  = (Ret (acc ++ filter (fun d => negb (present (fs st) d)) l),
     emit (map dir_error (filter (fun d => negb (present (fs st) d)) l)) [] [] [] st).
Proof.
  induction l as [|d l IH]; intros acc st.
  - cbn [for_fold filter map]. unfold ret. now rewrite app_nil_r, emit_nil.
  - rewrite for_fold_cons, !bind_eq. cbn [filter].
    unfold path_exists at 1.
    destruct (present (fs st) d) eqn:E; cbn [negb].
    + unfold ret at 1. apply IH.
    + rewrite bind_eq, add_error_emit. unfold ret at 1.
      rewrite IH, fs_emit, emit_emit.
      cbn [map app]. now rewrite <- app_assoc.
Qed.

Lemma check_directory_structure_eq st :
  check_directory_structure st
  = (Ret (negb (nonempty (missing_dirs (fs st)))),
     emit (map dir_error (missing_dirs (fs st))) [] [dir_summary (missing_dirs (fs st))] [] st).
Proof.
  unfold check_directory_structure.
  erewrite bind_ret_eq by apply directory_loop.
  fold (missing_dirs (fs st)). simpl app.
  set (m := missing_dirs (fs st)).
  assert (S : (if nonempty m
               then add_info ("Found " ++ str_of_nat (List.length required_dirs - List.length m)
                                ++ "/" ++ str_of_nat (List.length required_dirs)
                                ++ " required directories")
               else add_info "All required directories present")
              = add_info (dir_summary m)).
  { unfold dir_summary. now destruct (nonempty m). }
  rewrite S.
  erewrite bind_ret_eq by apply add_info_emit.
  unfold ret. rewrite emit_emit. simpl.
  rewrite app_nil_r. f_equal. f_equal. now destruct m.
Qed.

End Directory_check.

Section List_facts.


Lemma count_occ_NoDup_In {A} (dec : forall x y : A, {x = y} + {x <> y}) l x :
  NoDup l -> In x l -> count_occ dec l x = 1.
Proof.
  intros ND HIn.
  apply (proj1 (NoDup_count_occ dec l)) with (x := x) in ND.
  apply (proj1 (count_occ_In dec l x)) in HIn. lia.
Qed.

Lemma NoDup_map_filter {A B} (f : A -> B) (q : A -> bool) l :
  NoDup (map f l) -> NoDup (map f (filter q l)).
Proof.
  induction l as [|a l IH]; simpl; intros ND; [constructor|].
  inversion ND as [|? ? Hn ND']; subst.
  destruct (q a); simpl; auto.
  constructor; auto.
  intros HIn. apply Hn. apply in_map_iff in HIn as (y & <- & Hy).
  apply in_map_iff. exists y. split; auto. apply filter_In in Hy. tauto.
Qed.

Lemma nonempty_false {A} (l : list A) : SDD.nonempty l = false <-> l = [].
Proof. destruct l; simpl; split; congruence. Qed.

End List_facts.

Section Directory_claim.
Import Py FS SDD Directories.


End Directory_claim.

Section Directory_theorem.
Import Py FS SDD Directories.



End Directory_theorem.

Section Exit_status.
Import Py FS SDD.

Example clean_repository_passes :
  fst (main (World Samples.repo_clean [])) = 0
  /\ fst (validate_all (new_validator (World Samples.repo_clean []))) = Ret true.
Proof. vm_compute. split; reflexivity. Qed.

(** C1 (the code departs from it): on a repository that lacks only
    README.md the run records one warning and no error, prints
    "Validation passed with warnings", and still ends with exit status 1,
    because the orchestrator returns the conjunction of the checks'
    booleans and the documentation check returns false on a warning. *)
Theorem C1_warning_only_run_exits_nonzero :
  let w := World Samples.repo_no_readme [] in
  let st := snd (validate_all (new_validator w)) in
  errors st = []
  /\ warnings st = ["Missing documentation: README.md"]
  /\ In (nl ++ "⚠️  Validation passed with warnings")%string (stdout st)
  /\ fst (validate_all (new_validator w)) = Ret false
  /\ fst (main w) = 1.
Proof.
  vm_compute. repeat split; try reflexivity.
  repeat first [left; reflexivity | right].
Qed.

(** C2 (the code departs from it): a governance file, or a specification
    file, that exists but does not decode as text makes its check raise
    UnicodeDecodeError; the exception passes through the orchestrator and
    ends the process. *)
Theorem C2_unreadable_file_raises :
  let st := new_validator (World Samples.repo_binary_constitution []) in
  let st' := new_validator (World Samples.repo_binary_spec []) in
  check_governance_files st = (Raise UnicodeDecodeError, st)
  /\ fst (validate_all st) = Raise UnicodeDecodeError
  /\ fst (check_specifications st') = Raise UnicodeDecodeError
  /\ fst (validate_all st') = Raise UnicodeDecodeError.
Proof. vm_compute. repeat split; reflexivity. Qed.

End Exit_status.

Section Governance_check.
Import Py FS SDD Governance.
Local Open Scope py_scope.

Lemma read_text_readable st f t :
  file_text (fs st) f = Some t -> read_text f st = (Ret t, st).
Proof.
  unfold file_text, read_text. destruct (lookup (fs st) (path_of f)) as [[[]|]|]; try discriminate.
  now intros [= ->].
Qed.

Lemma file_text_present root f t : file_text root f = Some t -> present root f = true.
Proof. unfold file_text, present. now destruct (lookup root (path_of f)). Qed.

Lemma read_text_cases f st :
  (exists t, file_text (fs st) f = Some t /\ read_text f st = (Ret t, st))
  \/ (file_text (fs st) f = None /\ exists e, read_text f st = (Raise e, st)).
Proof.
  unfold read_text, file_text, read_node, raise, ret.
  destruct (lookup (fs st) (path_of f)) as [[[t| |]|]|]; eauto.
Qed.

Lemma section_loop f content (secs : list string) : forall acc st,
  for_fold secs acc (fun section all_valid =>
    if negb (contains section content) then
      (add_warning ("Missing section '" ++ section ++ "' in " ++ f) ;; ret false)
    else ret all_valid) st
  = (Ret (acc && forallb (fun s => contains s content) secs),
     emit [] (map (gov_warning f) (filter (fun s => negb (contains s content)) secs)) [] [] st).
Proof.
  induction secs as [|s secs IH]; intros acc st.
  - cbn [for_fold forallb filter map]. unfold ret. now rewrite andb_true_r, emit_nil.
  - rewrite for_fold_cons, bind_eq. cbn [forallb filter].
    destruct (contains s content); cbn [negb].
    + unfold ret at 1. rewrite IH. now rewrite andb_true_l.
    + rewrite bind_eq, add_warning_emit. unfold ret at 1.
      rewrite IH, emit_emit. cbn [map app andb]. now rewrite andb_false_r.
Qed.

Lemma governance_loop (l : list (string * list string)) : forall st acc,
  readable (fs st) l ->
  for_fold l acc (fun '(file_path, required_sections) all_valid =>
    e <- path_exists file_path ;;
    if negb e then
      (add_error ("Missing governance file: " ++ file_path) ;;
       ret false)
    else
      content <- read_text file_path ;;
      for_fold required_sections all_valid (fun section all_valid =>
        if negb (contains section content) then
          (add_warning ("Missing section '" ++ section ++ "' in " ++ file_path) ;;
           ret false)
        else ret all_valid)) st
  = (Ret (acc && gov_valid (fs st) l),
     emit (map gov_error (absent_files (fs st) l)) (gov_warnings (fs st) l) [] [] st).
Proof.
  induction l as [|[f secs] l IH]; intros st acc Hr.
  - cbn. unfold ret. now rewrite andb_true_r, emit_nil.
  - assert (Hr' : readable (fs st) l).
    { intros f' secs' HIn. apply (Hr f' secs'). now right. }
    rewrite for_fold_cons, bind_eq. cbn beta iota.
    rewrite bind_eq. unfold path_exists at 1.
    unfold absent_files, gov_warnings, gov_valid, missing_sections.
    cbn [map filter flat_map forallb fst snd].
    destruct (present (fs st) f) eqn:E; cbn [negb].
    + destruct (Hr f secs (or_introl eq_refl) E) as [t Ht].
      rewrite bind_eq, (read_text_readable _ _ _ Ht). cbn beta iota.
      rewrite section_loop, Ht.
      rewrite IH by (now rewrite fs_emit).
      rewrite fs_emit, emit_emit. cbn [app].
      unfold absent_files, gov_warnings, gov_valid, missing_sections.
      now rewrite andb_assoc.
    + assert (Hn : file_text (fs st) f = None).
      { destruct (file_text (fs st) f) eqn:Ht; [|reflexivity].
        apply file_text_present in Ht. congruence. }
      rewrite bind_eq, add_error_emit. unfold ret at 1.
      rewrite IH by (now rewrite fs_emit).
      rewrite fs_emit, emit_emit, Hn. cbn [map app andb].
      unfold absent_files, gov_warnings, gov_valid, missing_sections.
      now rewrite andb_false_r.
Qed.

Lemma governance_loop_outcome (l : list (string * list string)) : forall st acc,
  match fst (for_fold l acc (fun '(file_path, required_sections) all_valid =>
    e <- path_exists file_path ;;
    if negb e then
      (add_error ("Missing governance file: " ++ file_path) ;;
       ret false)
    else
      content <- read_text file_path ;;
      for_fold required_sections all_valid (fun section all_valid =>
        if negb (contains section content) then
          (add_warning ("Missing section '" ++ section ++ "' in " ++ file_path) ;;
           ret false)
        else ret all_valid)) st) with
  | Raise _ => gov_valid (fs st) l = false
  | Ret b => b = acc && gov_valid (fs st) l
  end.
Proof.
  induction l as [|[f secs] l IH]; intros st acc.
  - cbn. now rewrite andb_true_r.
  - rewrite for_fold_cons, bind_eq. cbn beta iota.
    rewrite bind_eq. unfold path_exists at 1.
    unfold gov_valid. cbn [forallb fst snd]. fold (gov_valid (fs st) l).
    destruct (present (fs st) f) eqn:E; cbn [negb].
    + rewrite bind_eq.
      destruct (read_text_cases f st) as [(t & Ht & ->)|(Ht & e & ->)]; rewrite Ht.
      * rewrite section_loop.
        specialize (IH (emit [] (map (gov_warning f)
                                     (filter (fun s => negb (contains s t)) secs)) [] [] st)
                       (acc && forallb (fun s => contains s t) secs)).
        rewrite fs_emit in IH.
        destruct (fst (for_fold l _ _ _)) as [b|e].
        -- now rewrite andb_assoc.
        -- rewrite IH. apply andb_false_r.
      * reflexivity.
    + assert (Hn : file_text (fs st) f = None).
      { destruct (file_text (fs st) f) eqn:Ht; [|reflexivity].
        apply file_text_present in Ht. congruence. }
      rewrite bind_eq, add_error_emit. unfold ret at 1. rewrite Hn.
      specialize (IH (emit [gov_error f] [] [] [] st) false). rewrite fs_emit in IH.
      destruct (fst (for_fold l _ _ _)) as [b|e].
      * rewrite IH. now rewrite andb_false_r.
      * reflexivity.
Qed.

Lemma gov_valid_readable root l : gov_valid root l = true -> readable root l.
Proof.
  unfold gov_valid. rewrite forallb_forall. intros H f secs HIn _.
  specialize (H (f, secs) HIn). cbn [fst snd] in H.
  destruct (file_text root f) as [t|]; [eauto|discriminate].
Qed.

Lemma check_governance_files_eq st :
  readable (fs st) required_files ->
  check_governance_files st
  = (Ret (gov_valid (fs st) required_files),
     emit (map gov_error (absent_files (fs st) required_files))
          (gov_warnings (fs st) required_files) [] [] st).
Proof.
  intros Hr. unfold check_governance_files.
  now rewrite governance_loop.
Qed.

End Governance_check.

Section Sublist_facts.
Context {A B : Type}.

Lemma sublist_refl (l : list A) : sublist l l.
Proof. induction l; [apply sublist_nil|apply sublist_keep; auto]. Qed.

Lemma sublist_nil_l (l : list A) : sublist [] l.
Proof. induction l; constructor; auto. Qed.

Lemma sublist_filter (q : A -> bool) (l : list A) : sublist (filter q l) l.
Proof.
  induction l as [|a l IH]; simpl; [constructor|].
  destruct (q a); [apply sublist_keep|apply sublist_skip]; auto.
Qed.

Lemma sublist_In (l l' : list A) x : sublist l l' -> In x l -> In x l'.
Proof. induction 1; simpl; intuition. Qed.

Lemma sublist_NoDup (l l' : list A) : sublist l l' -> NoDup l' -> NoDup l.
Proof.
  induction 1 as [|x l l' H IH|x l l' H IH]; intros ND; auto.
  - inversion ND; auto.
  - inversion ND as [|? ? Hn ND']; subst. constructor; auto.
    intros HIn. apply Hn. eapply sublist_In; eauto.
Qed.

Lemma sublist_app (l1 l1' l2 l2' : list A) :
  sublist l1 l1' -> sublist l2 l2' -> sublist (l1 ++ l2) (l1' ++ l2').
Proof.
  induction 1; simpl; intros; auto; [apply sublist_skip|apply sublist_keep]; auto.
Qed.

Lemma sublist_map (f : A -> B) (l l' : list A) :
  sublist l l' -> sublist (map f l) (map f l').
Proof.
  induction 1; simpl; [apply sublist_nil|apply sublist_skip|apply sublist_keep]; auto.
Qed.

End Sublist_facts.

Lemma sublist_flat_map {A B} (f g : A -> list B) (l : list A) :
  (forall x, In x l -> sublist (f x) (g x)) -> sublist (flat_map f l) (flat_map g l).
Proof.
  induction l as [|a l IH]; simpl; intros H; [constructor|].
  apply sublist_app; auto.
Qed.

Section Governance_theorem.
Import Py FS SDD Governance.

Lemma missing_sections_sublist root f secs : sublist (missing_sections root f secs) secs.
Proof.
  unfold missing_sections. destruct (file_text root f).
  - apply sublist_filter.
  - apply sublist_nil_l.
Qed.

Lemma gov_warnings_sublist root : sublist (gov_warnings root required_files) all_gov_warnings.
Proof.
  apply sublist_flat_map. intros e _. apply sublist_map, missing_sections_sublist.
Qed.

Lemma all_gov_warnings_NoDup : NoDup all_gov_warnings.
Proof.
  unfold all_gov_warnings, required_files, gov_warning. cbn [flat_map map fst snd app].
  repeat (constructor; [cbn [In]; intuition (try discriminate)|]).
  constructor.
Qed.

Lemma gov_errors_NoDup : NoDup (map gov_error (map fst required_files)).
Proof.
  unfold required_files, gov_error. cbn [map fst].
  repeat (constructor; [cbn [In]; intuition (try discriminate)|]).
  constructor.
Qed.

Lemma gov_warning_names_file f S s f' S' s' :
  In (f, S) required_files -> In s S ->
  In (f', S') required_files -> In s' S' ->
  gov_warning f s = gov_warning f' s' -> f = f'.
Proof.
  unfold required_files, gov_warning. cbn [In].
  intros H1 H2 H3 H4 E.
  repeat match goal with
         | H : _ \/ _ |- _ => destruct H
         | H : False |- _ => destruct H
         | H : (_, _) = (_, _) |- _ => injection H as <- <-; cbn [In] in *
         end; subst; try reflexivity; discriminate E.
Qed.

Lemma in_gov_warnings root m :
  In m (gov_warnings root required_files) <->
  exists f S s, In (f, S) required_files /\ In s (missing_sections root f S)
                /\ m = gov_warning f s.
Proof.
  unfold gov_warnings. rewrite in_flat_map. split.
  - intros ([f S] & HIn & Hm). apply in_map_iff in Hm as (s & <- & Hs).
    exists f, S, s. auto.
  - intros (f & S & s & HIn & Hs & ->). exists (f, S). split; [assumption|].
    now apply in_map.
Qed.

Lemma governance_check_readable : forall st : state,
  readable (fs st) required_files ->
  let root := fs st in
  let errs := map gov_error (absent_files root required_files) in
  let warns := gov_warnings root required_files in
  check_governance_files st = (Ret (gov_valid root required_files), emit errs warns [] [] st)
  /\ (forall F S, In (F, S) required_files -> present root F = false ->
        count_occ string_dec errs ("Missing governance file: " ++ F)%string = 1
        /\ forall s, In s S ->
             ~ In ("Missing section '" ++ s ++ "' in " ++ F)%string warns)
  /\ (forall F S s t, In (F, S) required_files -> In s S ->
        file_text root F = Some t -> contains s t = false ->
        count_occ string_dec warns ("Missing section '" ++ s ++ "' in " ++ F)%string = 1)
  /\ (gov_valid root required_files = true
      <-> forall F S, In (F, S) required_files ->
            present root F = true
            /\ exists t, file_text root F = Some t
                         /\ forall s, In s S -> contains s t = true)
  /\ (warns <> [] -> gov_valid root required_files = false).
Proof.
  intros st Hr root errs warns.
  split; [now apply check_governance_files_eq|].
  split; [|split; [|split]].
  - intros F S HIn HP. split.
    + apply count_occ_NoDup_In.
      * apply NoDup_map_filter with (f := gov_error) (q := fun f => negb (present root f)).
        apply gov_errors_NoDup.
      * apply in_map, filter_In. split; [|now rewrite HP].
        apply in_map_iff. exists (F, S). auto.
    + intros s Hs Hw. apply in_gov_warnings in Hw as (f & S' & s' & HIn' & Hs' & E).
      assert (Hs'' : In s' S') by (eapply sublist_In; [apply missing_sections_sublist|eassumption]).
      apply (gov_warning_names_file F S s f S' s') in E; auto. subst f.
      unfold missing_sections in Hs'.
      destruct (file_text root F) eqn:Ht; [|contradiction].
      apply file_text_present in Ht. congruence.
  - intros F S s t HIn Hs Ht Hc. apply count_occ_NoDup_In.
    + eapply sublist_NoDup; [apply gov_warnings_sublist|apply all_gov_warnings_NoDup].
    + apply in_gov_warnings. exists F, S, s. split; [assumption|]. split; [|reflexivity].
      unfold missing_sections. rewrite Ht. apply filter_In. split; [assumption|now rewrite Hc].
  - unfold gov_valid. rewrite forallb_forall. split.
    + intros H F S HIn. specialize (H (F, S) HIn). cbn [fst snd] in H.
      destruct (file_text root F) as [t|] eqn:Ht; [|discriminate].
      split; [eapply file_text_present; eassumption|].
      exists t. split; [reflexivity|]. now apply forallb_forall.
    + intros H [F S] HIn. cbn [fst snd].
      destruct (H F S HIn) as (_ & t & -> & Hall). now apply forallb_forall.
  - intros Hne. destruct (gov_valid root required_files) eqn:E; [|reflexivity].
    exfalso. apply Hne. unfold gov_valid in E. rewrite forallb_forall in E.
    destruct warns as [|m ws] eqn:Ew; [reflexivity|].
    assert (Hm : In m (gov_warnings root required_files)) by (fold warns; rewrite Ew; now left).
    apply in_gov_warnings in Hm as (f & S & s & HIn & Hs & _).
    specialize (E (f, S) HIn). cbn [fst snd] in E.
    unfold missing_sections in Hs. destruct (file_text root f); [|contradiction].
    apply filter_In in Hs as [Hs Hc]. rewrite forallb_forall in E.
    rewrite (E s Hs) in Hc. discriminate.
Qed.

(** X12: when every governance file that exists can be read as text, the
    governance check emits exactly one error for each absent file F and
    no missing-section warning about it; for each present F and each
    required section s not found verbatim in its text it emits exactly
    one warning naming s and F; and a missing section alone, with no error
    recorded, makes it return false.  On every state the check returns
    true if and only if every required file exists and every required
    section was found in its text. *)
Theorem X12_governance_on_readable_files : forall st : state,
  let root := fs st in
  let errs := map gov_error (absent_files root required_files) in
  let warns := gov_warnings root required_files in
  (readable root required_files ->
     check_governance_files st
     = (Ret (gov_valid root required_files), emit errs warns [] [] st)
     /\ (forall F S, In (F, S) required_files -> present root F = false ->
           count_occ string_dec errs ("Missing governance file: " ++ F)%string = 1
           /\ forall s, In s S ->
                ~ In ("Missing section '" ++ s ++ "' in " ++ F)%string warns)
     /\ (forall F S s t, In (F, S) required_files -> In s S ->
           file_text root F = Some t -> contains s t = false ->
           count_occ string_dec warns ("Missing section '" ++ s ++ "' in " ++ F)%string = 1)
     /\ (warns <> [] -> gov_valid root required_files = false))
  /\ (fst (check_governance_files st) = Ret true
      <-> forall F S, In (F, S) required_files ->
            present root F = true
            /\ exists t, file_text root F = Some t
                         /\ forall s, In s S -> contains s t = true).
Proof.
  intros st root errs warns. split.
  - intros Hr. destruct (governance_check_readable st Hr) as (H1 & H2 & H3 & _ & H5).
    auto.
  - assert (Hv : fst (check_governance_files st) = Ret true
                 <-> gov_valid root required_files = true).
    { split.
      - intros Hret. unfold check_governance_files in Hret.
        pose proof (governance_loop_outcome required_files st true) as Ho.
        rewrite Hret in Ho. now rewrite andb_true_l in Ho.
      - intros Hg. rewrite check_governance_files_eq by now apply gov_valid_readable.
        cbn [fst]. fold root. now rewrite Hg. }
    rewrite Hv. unfold gov_valid. rewrite forallb_forall. split.
    + intros H F S HIn. specialize (H (F, S) HIn). cbn [fst snd] in H.
      destruct (file_text root F) as [t|] eqn:Ht; [|discriminate].
      split; [eapply file_text_present; eassumption|].
      exists t. split; [reflexivity|]. now apply forallb_forall.
    + intros H [F S] HIn. cbn [fst snd].
      destruct (H F S HIn) as (_ & t & -> & Hall). now apply forallb_forall.
Qed.

Lemma X12_governance_on_readable_files_witness :
  let st := new_validator (World Samples.repo_short_constitution []) in
  readable (fs st) required_files
  /\ check_governance_files st
     = (Ret false,
        State Samples.repo_short_constitution [] []
              ["Missing section 'Version' in dev-docs/sdd/constitution.md"] []).
Proof.
  assert (Hr : readable Samples.repo_short_constitution required_files).
  { intros f secs [E|[E|[E|[]]]] _; injection E as <- <-; eexists; reflexivity. }
  split; [exact Hr|].
  destruct (X12_governance_on_readable_files
              (new_validator (World Samples.repo_short_constitution []))) as [H _].
  rewrite (proj1 (H Hr)). reflexivity.
Defined.

(** C3 (the code departs from it): with a constitution that exists but
    does not decode as text, the governance check raises at its first
    file.  The lifecycle document is absent and the checklist lacks its
    sections, yet no error is recorded for the one and no warning for the
    other; the check returns no boolean and the exception ends the run. *)
Theorem C3_unreadable_file_hides_findings :
  let root := Failures.repo_binary_constitution_only in
  let st := new_validator (World root []) in
  present root "dev-docs/sdd/lifecycle.md" = false
  /\ file_text root "dev-docs/sdd/constitution_update_checklist.md" = Some "empty"
  /\ contains "Pre-Amendment" "empty" = false
  /\ check_governance_files st = (Raise UnicodeDecodeError, st)
  /\ count_occ string_dec (errors (snd (check_governance_files st)))
                "Missing governance file: dev-docs/sdd/lifecycle.md" = 0
  /\ count_occ string_dec (warnings (snd (check_governance_files st)))
                "Missing section 'Pre-Amendment' in dev-docs/sdd/constitution_update_checklist.md"
     = 0
  /\ fst (validate_all st) = Raise UnicodeDecodeError
  /\ fst (main (World root [])) = 1.
Proof. vm_compute. repeat split; reflexivity. Qed.

End Governance_theorem.

Section Agent_contexts.
Import Py FS SDD Agents.
Local Open Scope py_scope.

Lemma warn_each (f content : string) (l : list string) : forall st,
  for_each l (fun section =>
    if negb (contains section content) then
      add_warning ("Missing section '" ++ section ++ "' in " ++ f)
    else ret tt) st
  = (Ret tt,
     emit [] (map (fun s => "Missing section '" ++ s ++ "' in " ++ f)%string
                  (filter (fun s => negb (contains s content)) l)) [] [] st).
Proof.
  unfold for_each.
  induction l as [|s l IH]; intros st.
  - cbn [for_fold filter map]. unfold ret. now rewrite emit_nil.
  - rewrite for_fold_cons, bind_eq. cbn [filter].
    destruct (contains s content); cbn [negb].
    + unfold ret at 1. apply IH.
    + rewrite add_warning_emit, IH, emit_emit. reflexivity.
Qed.

Lemma context_file_step (f t : string) (all_valid : bool) st :
  ((if endswith f "CLAUDE.md" then
      for_each ["## Role"; "## Allowed Tools"; "## Safety Boundaries"]
        (fun section =>
           if negb (contains section t) then
             add_warning ("Missing section '" ++ section ++ "' in " ++ f)
           else ret tt)
    else ret tt) ;;
   (if endswith f "AGENTS.md" then
      if negb (contains "## Supported Agents" t) then
        add_warning ("Missing 'Supported Agents' section in " ++ f)
      else ret tt
    else ret tt) ;;
   ret all_valid) st
  = (Ret all_valid, emit [] (ctx_warnings f t) [] [] st).
Proof.
  unfold ctx_warnings. rewrite bind_eq.
  destruct (endswith f "CLAUDE.md").
  - rewrite warn_each. rewrite bind_eq.
    destruct (endswith f "AGENTS.md"); [destruct (contains "## Supported Agents" t)|];
      cbn [negb]; rewrite ?add_warning_emit; unfold ret; rewrite ?emit_emit;
      cbn [app]; rewrite ?app_nil_r; reflexivity.
  - unfold ret at 1. rewrite bind_eq.
    destruct (endswith f "AGENTS.md"); [destruct (contains "## Supported Agents" t)|];
      cbn [negb]; rewrite ?add_warning_emit; unfold ret; rewrite ?emit_nil;
      reflexivity.
Qed.

Lemma agent_loop (l : list string) : forall st acc,
  readable (fs st) l ->
  for_fold l acc (fun context_file all_valid =>
    e <- path_exists context_file ;;
    if negb e then
      (add_error ("Missing agent context: " ++ context_file) ;;
       ret false)
    else
      content <- read_text context_file ;;
      (if endswith context_file "CLAUDE.md" then
         for_each ["## Role"; "## Allowed Tools"; "## Safety Boundaries"]
           (fun section =>
              if negb (contains section content) then
                add_warning ("Missing section '" ++ section ++ "' in " ++ context_file)
              else ret tt)
       else ret tt) ;;
      (if endswith context_file "AGENTS.md" then
         if negb (contains "## Supported Agents" content) then
           add_warning ("Missing 'Supported Agents' section in " ++ context_file)
         else ret tt
       else ret tt) ;;
      ret all_valid) st
  = (Ret (acc && forallb (present (fs st)) l),
     emit (map ctx_error (absent_contexts (fs st) l)) (all_ctx_warnings (fs st) l) [] [] st).
Proof.
  induction l as [|f l IH]; intros st acc Hr.
  - cbn. unfold ret. now rewrite andb_true_r, emit_nil.
  - assert (Hr' : readable (fs st) l).
    { intros f' HIn. apply (Hr f'). now right. }
    rewrite for_fold_cons, bind_eq. rewrite bind_eq. unfold path_exists at 1.
    unfold absent_contexts, all_ctx_warnings.
    cbn [map filter flat_map forallb].
    destruct (present (fs st) f) eqn:E; cbn [negb].
    + destruct (Hr f (or_introl eq_refl) E) as [t Ht].
      rewrite bind_eq, (read_text_readable _ _ _ Ht). cbn beta iota.
      rewrite context_file_step, Ht.
      rewrite IH by (now rewrite fs_emit).
      rewrite fs_emit, emit_emit. cbn [app].
      unfold absent_contexts, all_ctx_warnings. now rewrite andb_true_l.
    + assert (Hn : file_text (fs st) f = None).
      { destruct (file_text (fs st) f) eqn:Ht; [|reflexivity].
        apply file_text_present in Ht. congruence. }
      rewrite bind_eq, add_error_emit. unfold ret at 1.
      rewrite IH by (now rewrite fs_emit).
      rewrite fs_emit, emit_emit, Hn. cbn [map app andb].
      unfold absent_contexts, all_ctx_warnings. now rewrite andb_false_r.
Qed.

Lemma agent_loop_outcome (l : list string) : forall st acc,
  match fst (for_fold l acc (fun context_file all_valid =>
    e <- path_exists context_file ;;
    if negb e then
      (add_error ("Missing agent context: " ++ context_file) ;;
       ret false)
    else
      content <- read_text context_file ;;
      (if endswith context_file "CLAUDE.md" then
         for_each ["## Role"; "## Allowed Tools"; "## Safety Boundaries"]
           (fun section =>
              if negb (contains section content) then
                add_warning ("Missing section '" ++ section ++ "' in " ++ context_file)
              else ret tt)
       else ret tt) ;;
      (if endswith context_file "AGENTS.md" then
         if negb (contains "## Supported Agents" content) then
           add_warning ("Missing 'Supported Agents' section in " ++ context_file)
         else ret tt
       else ret tt) ;;
      ret all_valid) st) with
  | Raise _ => True
  | Ret b => b = acc && forallb (present (fs st)) l
  end.
Proof.
  induction l as [|f l IH]; intros st acc.
  - cbn. now rewrite andb_true_r.
  - rewrite for_fold_cons, bind_eq. rewrite bind_eq. unfold path_exists at 1.
    cbn [forallb].
    destruct (present (fs st) f) eqn:E; cbn [negb].
    + rewrite bind_eq.
      destruct (read_text_cases f st) as [(t & _ & ->)|(_ & e & ->)]; [|exact I].
      rewrite context_file_step. cbn beta iota.
      specialize (IH (emit [] (ctx_warnings f t) [] [] st) acc).
      rewrite fs_emit in IH. rewrite andb_true_l. exact IH.
    + rewrite bind_eq, add_error_emit. unfold ret at 1.
      specialize (IH (emit [ctx_error f] [] [] [] st) false).
      rewrite fs_emit in IH. rewrite andb_false_r. exact IH.
Qed.

(** X14: when the agent-context files that exist can be read as text, the
    agent-context check returns whether all four exist: with all four
    present it returns true and records no error, whatever sections they
    lack, the missing sections being reported as warnings only; on every
    state a false result means that a context file is missing.  The
    governance check, by contrast, returns false on a missing section with
    no error recorded. *)
Theorem X14_agent_contexts_on_readable_files : forall st : state,
  (readable (fs st) contexts ->
     check_agent_contexts st
     = (Ret (forallb (present (fs st)) contexts),
        emit (map ctx_error (absent_contexts (fs st) contexts))
             (all_ctx_warnings (fs st) contexts) [] [] st))
  /\ (readable (fs st) contexts ->
      (forall f, In f contexts -> present (fs st) f = true) ->
      fst (check_agent_contexts st) = Ret true
      /\ errors (snd (check_agent_contexts st)) = errors st
      /\ warnings (snd (check_agent_contexts st))
         = warnings st ++ all_ctx_warnings (fs st) contexts)
  /\ (fst (check_agent_contexts st) = Ret false ->
      exists f, In f contexts /\ present (fs st) f = false)
  /\ (let g := new_validator (World Samples.repo_short_constitution []) in
      fst (check_governance_files g) = Ret false
      /\ errors (snd (check_governance_files g)) = []
      /\ warnings (snd (check_governance_files g)) <> []).
Proof.
  intros st.
  assert (Heq : readable (fs st) contexts ->
     check_agent_contexts st
     = (Ret (forallb (present (fs st)) contexts),
        emit (map ctx_error (absent_contexts (fs st) contexts))
             (all_ctx_warnings (fs st) contexts) [] [] st)).
  { intros Hr. unfold check_agent_contexts. now rewrite agent_loop. }
  split; [exact Heq|]. split; [|split].
  - intros Hr Hall. rewrite (Heq Hr). cbn [fst snd].
    assert (Hf : forallb (present (fs st)) contexts = true) by now apply forallb_forall.
    assert (Ha : absent_contexts (fs st) contexts = []).
    { unfold absent_contexts. apply nonempty_false.
      destruct (filter _ contexts) as [|x xs] eqn:Ef; [reflexivity|].
      assert (Hx : In x (filter (fun f => negb (present (fs st) f)) contexts))
        by (rewrite Ef; now left).
      apply filter_In in Hx as [Hx Hn]. rewrite (Hall x Hx) in Hn. discriminate. }
    rewrite Hf, Ha. cbn [map emit errors warnings]. now rewrite app_nil_r.
  - intros Hret. unfold check_agent_contexts in Hret.
    pose proof (agent_loop_outcome contexts st true) as Ho.
    rewrite Hret in Ho. rewrite andb_true_l in Ho. symmetry in Ho.
    clear Hret Heq. revert Ho. unfold contexts. intros Ef.
    induction ((["dev-docs/sdd/CLAUDE.md"; "dev-docs/sdd/AGENTS.md";
                 "dev-docs/cli/CLAUDE.md"; "dev-docs/cli/AGENTS.md"])%string) as [|f l IH];
      [discriminate|].
    cbn [forallb] in Ef. destruct (present (fs st) f) eqn:E.
    + destruct (IH Ef) as (f' & HIn & Hf'). exists f'. split; [now right|assumption].
    + exists f. split; [now left|assumption].
  - vm_compute. repeat split; try reflexivity. discriminate.
Qed.

Lemma X14_agent_contexts_on_readable_files_witness :
  let st := new_validator (World Samples.repo_empty_contexts []) in
  readable (fs st) contexts
  /\ (forall f, In f contexts -> present (fs st) f = true)
  /\ fst (check_agent_contexts st) = Ret true
  /\ errors (snd (check_agent_contexts st)) = []
  /\ List.length (warnings (snd (check_agent_contexts st))) = 8.
Proof.
  assert (Hp : forall f, In f contexts -> present Samples.repo_empty_contexts f = true).
  { intros f [<-|[<-|[<-|[<-|[]]]]]; reflexivity. }
  assert (Hr : readable Samples.repo_empty_contexts contexts).
  { intros f [<-|[<-|[<-|[<-|[]]]]] _; eexists; reflexivity. }
  split; [exact Hr|]. split; [exact Hp|].
  destruct (X14_agent_contexts_on_readable_files (new_validator (World Samples.repo_empty_contexts [])))
    as (_ & H & _).
  destruct (H Hr Hp) as (H1 & H2 & H3).
  split; [exact H1|]. split; [exact H2|].
  cbv zeta. rewrite H3. reflexivity.
Defined.

(** C10 (the code departs from it): all four agent-context files exist,
    the first of them not decodable as text; the agent-context check
    raises UnicodeDecodeError instead of returning true, and the exception
    ends the run. *)
Theorem C10_unreadable_context_raises :
  let root := Failures.repo_binary_context in
  let st := new_validator (World root []) in
  forallb (present root) contexts = true
  /\ check_agent_contexts st = (Raise UnicodeDecodeError, st)
  /\ fst (check_agent_contexts st) <> Ret true
  /\ fst (validate_all st) = Raise UnicodeDecodeError
  /\ fst (main (World root [])) = 1.
Proof. vm_compute. repeat split; try reflexivity. discriminate. Qed.

End Agent_contexts.

Section Uniform_facts.
Import Py FS SDD Sink.
Local Open Scope py_scope.

Lemma replay_fresh st : replay st (fresh (fs st)) = st.
Proof. now destruct st. Qed.

Lemma fs_replay d st : fs (replay d st) = fs st.
Proof. reflexivity. Qed.

Lemma replay_replay d2 d st :
  replay (replay d2 d) st = replay d2 (replay d st).
Proof. unfold replay. cbn [emit errors warnings info stdout fs]. now rewrite emit_emit. Qed.

Lemma uniform_fs {A} (m : M A) root : uniform m -> fs (snd (m (fresh root))) = root.
Proof. intros H. rewrite (H (fresh root)). reflexivity. Qed.

Lemma uniform_pure {A} (f : node -> outcome A) :
  uniform (fun st => (f (fs st), st)).
Proof. intros st. cbn. unfold replay, fresh. cbn. now rewrite emit_nil. Qed.

Lemma uniform_ret {A} (a : A) : uniform (ret a).
Proof. apply (uniform_pure (fun _ => Ret a)). Qed.

Lemma uniform_raise {A} e : uniform (@raise A e).
Proof. apply (uniform_pure (fun _ => Raise e)). Qed.

Lemma uniform_path_exists p : uniform (path_exists p).
Proof. apply (uniform_pure (fun root => Ret (present root p))). Qed.

Lemma uniform_get_tree {A} (f : node -> A) : uniform (get (fun st => f (fs st))).
Proof. apply (uniform_pure (fun root => Ret (f root))). Qed.

Lemma uniform_read_node n : uniform (read_node n).
Proof. destruct n as [[]|]; [apply uniform_ret|apply uniform_raise..]. Qed.

Lemma uniform_read_text p : uniform (read_text p).
Proof.
  intros st. unfold read_text. cbn [fresh fs].
  destruct (lookup (fs st) (path_of p)) as [n|].
  - apply uniform_read_node.
  - cbn. unfold replay, fresh. cbn. now rewrite emit_nil.
Qed.

Lemma uniform_emit e w i o : uniform (fun st => (Ret tt, emit e w i o st)).
Proof. intros st. reflexivity. Qed.

Lemma uniform_add_error m : uniform (add_error m).
Proof. intros st. rewrite !add_error_emit. reflexivity. Qed.

Lemma uniform_add_warning m : uniform (add_warning m).
Proof. intros st. rewrite !add_warning_emit. reflexivity. Qed.

Lemma uniform_add_info m : uniform (add_info m).
Proof. intros st. rewrite !add_info_emit. reflexivity. Qed.

Lemma uniform_print m : uniform (print m).
Proof. intros st. rewrite !print_emit. reflexivity. Qed.

Lemma uniform_bind {A B} (m : M A) (k : A -> M B) :
  uniform m -> (forall a, uniform (k a)) -> uniform (bind m k).
Proof.
  intros Hm Hk st. rewrite !bind_eq. rewrite (Hm st).
  pose proof (uniform_fs m (fs st) Hm) as Hfs.
  destruct (m (fresh (fs st))) as [[a|e] d]; cbn [fst snd] in *; [|reflexivity].
  rewrite (Hk a (replay d st)), (Hk a d), fs_replay, Hfs. cbn [fst snd].
  now rewrite replay_replay.
Qed.

Lemma uniform_try_except {A} (m : M A) caught (h : M A) :
  uniform m -> uniform h -> uniform (try_except m caught h).
Proof.
  intros Hm Hh st. unfold try_except. rewrite (Hm st).
  pose proof (uniform_fs m (fs st) Hm) as Hfs.
  destruct (m (fresh (fs st))) as [[a|e] d]; cbn [fst snd] in *; [reflexivity|].
  destruct (caught e); [|reflexivity].
  rewrite (Hh (replay d st)), (Hh d), fs_replay, Hfs. cbn [fst snd].
  now rewrite replay_replay.
Qed.

Lemma uniform_for_fold {A Acc} (l : list A) (body : A -> Acc -> M Acc) :
  (forall x acc, uniform (body x acc)) -> forall acc, uniform (for_fold l acc body).
Proof.
  intros Hb. induction l as [|x l IH]; intros acc; cbn [for_fold].
  - apply uniform_ret.
  - apply uniform_bind; auto.
Qed.

Lemma uniform_for_each {A} (l : list A) (body : A -> M unit) :
  (forall x, uniform (body x)) -> uniform (for_each l body).
Proof. intros Hb. apply uniform_for_fold. auto. Qed.

End Uniform_facts.

Ltac uniform_step :=
  first
    [ apply uniform_ret | apply uniform_raise | apply uniform_path_exists
    | apply uniform_read_text | apply uniform_read_node
    | apply uniform_add_error | apply uniform_add_warning | apply uniform_add_info
    | apply uniform_print
    | apply (uniform_get_tree (fun root => root))
    | apply uniform_try_except
    | apply uniform_for_each | apply uniform_for_fold
    | apply uniform_bind
    | match goal with
      | |- Sink.uniform (if ?b then _ else _) => destruct b
      | |- Sink.uniform (match ?x with _ => _ end) => destruct x
      | |- Sink.uniform ((match ?x with _ => _ end) _) => destruct x; cbv beta iota
      | |- forall _, _ => intro
      end ].

Ltac uniform_tac := repeat uniform_step.

Section Checks_uniform.
Import Py FS SDD Sink.
Local Open Scope py_scope.

Lemma uniform_check_directory_structure : uniform check_directory_structure.
Proof. unfold check_directory_structure. uniform_tac. Qed.

Lemma uniform_check_governance_files : uniform check_governance_files.
Proof. unfold check_governance_files. uniform_tac. Qed.

Lemma uniform_check_agent_contexts : uniform check_agent_contexts.
Proof. unfold check_agent_contexts. uniform_tac. Qed.

Lemma uniform_check_specifications : uniform check_specifications.
Proof.
  unfold check_specifications.
  apply uniform_bind; [apply (uniform_get_tree (fun root => lookup root (path_of "specs")))|].
  uniform_tac.
Qed.

Lemma uniform_check_task_traceability : uniform check_task_traceability.
Proof. unfold check_task_traceability. uniform_tac. Qed.

Lemma uniform_check_documentation : uniform check_documentation.
Proof. unfold check_documentation. uniform_tac. Qed.

Lemma uniform_check_security : uniform check_security.
Proof. unfold check_security. uniform_tac. Qed.

Lemma uniform_checks : Forall (fun c => uniform (snd c)) checks.
Proof.
  unfold checks. repeat constructor; cbn [snd].
  - apply uniform_check_directory_structure.
  - apply uniform_check_governance_files.
  - apply uniform_check_agent_contexts.
  - apply uniform_check_specifications.
  - apply uniform_check_task_traceability.
  - apply uniform_check_documentation.
  - apply uniform_check_security.
Qed.

End Checks_uniform.

Section Orchestrator.
Import Py FS SDD Sink.
Local Open Scope py_scope.

Lemma print_each (f : string -> string) (l : list string) : forall st,
  for_each l (fun x => print (f x)) st = (Ret tt, emit [] [] [] (map f l) st).
Proof.
  unfold for_each. induction l as [|x l IH]; intros st.
  - cbn [for_fold map]. unfold ret. now rewrite emit_nil.
  - rewrite for_fold_cons, bind_eq, print_emit, IH, emit_emit. reflexivity.
Qed.

Lemma print_block (b : bool) (hdr : string) (f : string -> string) (l : list string) st :
  (if b then (print hdr ;; for_each l (fun x => print (f x))) else ret tt) st
  = (Ret tt, emit [] [] [] (if b then hdr :: map f l else []) st).
Proof.
  destruct b.
  - rewrite bind_eq, print_emit, print_each, emit_emit. reflexivity.
  - unfold ret. now rewrite emit_nil.
Qed.

Lemma print_verdict (b1 b2 : bool) (x y z : string) st :
  (if b1 then print x else if b2 then print y else print z) st
  = (Ret tt, emit [] [] [] [if b1 then x else if b2 then y else z] st).
Proof. destruct b1, b2; apply print_emit. Qed.

Lemma errors_emit e w i o st : errors (emit e w i o st) = errors st ++ e.
Proof. reflexivity. Qed.

Lemma warnings_emit e w i o st : warnings (emit e w i o st) = warnings st ++ w.
Proof. reflexivity. Qed.

Lemma info_emit e w i o st : info (emit e w i o st) = info st ++ i.
Proof. reflexivity. Qed.

Lemma stdout_emit e w i o st : stdout (emit e w i o st) = stdout st ++ o.
Proof. reflexivity. Qed.

Lemma get_eq {A} (f : state -> A) st : get f st = (Ret (f st), st).
Proof. reflexivity. Qed.

Lemma print_summary_eq st :
  print_summary st
  = (Ret tt, emit [] [] [] (summary_lines (errors st) (warnings st) (info st)) st).
Proof.
  unfold print_summary, summary_lines.
  rewrite bind_eq, print_emit. rewrite bind_eq, print_emit. rewrite bind_eq, print_emit.
  rewrite !emit_emit. cbn [app].
  rewrite bind_eq, get_eq, errors_emit, app_nil_r.
  rewrite bind_eq, get_eq, warnings_emit, app_nil_r.
  rewrite bind_eq, get_eq, info_emit, app_nil_r.
  rewrite bind_eq, print_block, emit_emit.
  rewrite bind_eq, print_block, emit_emit.
  rewrite bind_eq, print_block, emit_emit.
  rewrite bind_eq, print_verdict, emit_emit.
  rewrite print_emit, emit_emit.
  cbn [app]. now rewrite <- !app_assoc.
Qed.

Lemma uniform_for_fold_Forall {A Acc} (l : list A) (body : A -> Acc -> M Acc) :
  Forall (fun x => forall acc, uniform (body x acc)) l ->
  forall acc, uniform (for_fold l acc body).
Proof.
  induction 1 as [|x l Hx Hl IH]; intros acc; cbn [for_fold].
  - apply uniform_ret.
  - apply uniform_bind; auto.
Qed.

Lemma uniform_check_step (c : string * M bool) :
  uniform (snd c) ->
  forall acc, uniform ((fun '((check_name, check_func) : string * M bool) all_passed =>
    bind (print ("Checking " ++ check_name ++ "..."))
         (fun _ => bind check_func (fun passed : bool =>
            let status := if passed then "✅ PASS" else "❌ FAIL" in
            bind (print ("  " ++ status ++ nl))
                 (fun _ => ret (all_passed && passed))))) c acc).
Proof.
  destruct c as [name f]. cbn [snd]. intros Hf acc.
  apply uniform_bind; [apply uniform_print|intros _].
  apply uniform_bind; [exact Hf|intros passed].
  apply uniform_bind; [apply uniform_print|intros _]. apply uniform_ret.
Qed.

Lemma uniform_run_checks : uniform run_checks.
Proof.
  unfold run_checks. apply uniform_bind; [apply uniform_print|intros _].
  apply uniform_for_fold_Forall.
  eapply Forall_impl; [|apply uniform_checks].
  intros c Hc acc. now apply uniform_check_step.
Qed.

Lemma validate_all_eq st :
  validate_all st
  = match run_checks st with
    | (Ret all_passed, st1) =>
        (Ret all_passed,
         emit [] [] [] (summary_lines (errors st1) (warnings st1) (info st1)) st1)
    | (Raise e, st1) => (Raise e, st1)
    end.
Proof.
  unfold validate_all, run_checks. rewrite !bind_eq, print_emit.
  rewrite bind_eq.
  destruct (for_fold checks true _ _) as [[b|e] st1]; [|reflexivity].
  rewrite bind_eq, print_summary_eq. reflexivity.
Qed.

Lemma listing_emit_output k o st : listing k (emit [] [] [] o st) = listing k st.
Proof. destruct k; cbn; apply app_nil_r. Qed.

Lemma listing_replay k d st : listing k (replay d st) = listing k st ++ listing k d.
Proof. now destruct k. Qed.

Lemma checks_loop_found (k : kind) (cs : list (string * M bool)) :
  Forall (fun c => uniform (snd c)) cs ->
  forall acc st,
    listing k (snd (for_fold cs acc (fun '((check_name, check_func) : string * M bool) all_passed =>
      bind (print ("Checking " ++ check_name ++ "..."))
           (fun _ => bind check_func (fun passed : bool =>
              let status := if passed then "✅ PASS" else "❌ FAIL" in
              bind (print ("  " ++ status ++ nl))
                   (fun _ => ret (all_passed && passed))))) st))
    = listing k st ++ flat_map (found k (fs st)) (ran (fs st) cs).
Proof.
  induction 1 as [|[name f] cs Hf Hcs IH]; intros acc st.
  - cbn. now rewrite app_nil_r.
  - cbn [snd] in Hf. rewrite for_fold_cons, bind_eq. cbv beta iota.
    rewrite bind_eq, print_emit. rewrite bind_eq, (Hf (emit _ _ _ _ st)), fs_emit.
    cbn [ran snd flat_map]. unfold found at 1. cbn [snd].
    destruct (f (fresh (fs st))) as [[passed|e] d] eqn:Ef; cbn [fst snd].
    + cbv zeta. rewrite bind_eq, print_emit. unfold ret at 1.
      rewrite IH, fs_emit, fs_replay, fs_emit.
      rewrite listing_emit_output, listing_replay, listing_emit_output.
      now rewrite app_assoc.
    + cbn [flat_map]. rewrite listing_replay, listing_emit_output.
      now rewrite app_nil_r.
Qed.

Lemma run_checks_found k st :
  listing k (snd (run_checks st))
  = listing k st ++ flat_map (found k (fs st)) (ran (fs st) checks).
Proof.
  unfold run_checks. rewrite bind_eq, print_emit.
  rewrite (checks_loop_found k checks uniform_checks), fs_emit.
  now rewrite listing_emit_output.
Qed.

Lemma validate_all_found k st :
  listing k (snd (validate_all st))
  = listing k st ++ flat_map (found k (fs st)) (ran (fs st) checks).
Proof.
  rewrite validate_all_eq. rewrite <- run_checks_found.
  destruct (run_checks st) as [[b|e] st1]; cbn [snd]; [|reflexivity].
  apply listing_emit_output.
Qed.

End Orchestrator.

Section Sink_theorems.
Import Py FS SDD Sink Run.

Lemma uniform_appends {A} (m : M A) : uniform m ->
  forall st, exists e w i o, snd (m st) = emit e w i o st.
Proof.
  intros H st. rewrite (H st). cbn [snd]. unfold replay. eauto.
Qed.

Lemma validate_all_new_validator w :
  validate_all (new_validator w)
  = (fst (run_checks (fresh (w_fs w))),
     State (w_fs w) (w_stdout w ++ printed (w_fs w))
           (errors (snd (run_checks (fresh (w_fs w)))))
           (warnings (snd (run_checks (fresh (w_fs w)))))
           (info (snd (run_checks (fresh (w_fs w)))))).
Proof.
  rewrite validate_all_eq, (uniform_run_checks (new_validator w)).
  unfold printed. cbn [new_validator fs].
  destruct (run_checks (fresh (w_fs w))) as [[b|e] d]; cbn [fst snd].
  - unfold replay, emit, new_validator. cbn [fs stdout errors warnings info app].
    now rewrite !app_nil_r, app_assoc.
  - unfold replay, emit, new_validator. cbn [fs stdout errors warnings info app].
    now rewrite !app_nil_r.
Qed.

(** C8: a new validator starts with empty lists; every check, the summary
    and the whole run only append to the lists, whether they return or
    raise; and at the end of a run each list is what it was at the start
    followed by the findings of the checks that ran, check after check, in
    the order of the check table. *)
Theorem C8_sink_append_only :
  (forall w, errors (new_validator w) = []
             /\ warnings (new_validator w) = []
             /\ info (new_validator w) = [])
  /\ (forall c st, In c checks -> exists e w i o, snd (snd c st) = emit e w i o st)
  /\ (forall st, exists o, snd (print_summary st) = emit [] [] [] o st)
  /\ (forall st, exists e w i o, snd (validate_all st) = emit e w i o st)
  /\ (forall k st,
        listing k (snd (validate_all st))
        = listing k st ++ flat_map (found k (fs st)) (ran (fs st) checks)).
Proof.
  split; [intros w; repeat split|].
  split.
  { intros c st HIn. apply uniform_appends.
    apply (proj1 (Forall_forall _ _) uniform_checks c HIn). }
  split.
  { intros st. rewrite print_summary_eq. cbn [snd]. eauto. }
  split.
  { intros st. rewrite validate_all_eq, (uniform_run_checks st).
    destruct (fst (run_checks (fresh (fs st)))); unfold replay; cbn [snd];
      rewrite ?emit_emit; eauto. }
  apply validate_all_found.
Qed.

Lemma C8_sink_append_only_witness :
  let st := State Samples.repo_config ["earlier output"] ["e0"] ["w0"] ["i0"] in
  exists e w i o,
    snd (check_security st) = emit e w i o st.
Proof.
  cbv zeta.
  apply (proj1 (proj2 C8_sink_append_only) ("Security Checks", check_security)).
  unfold checks. cbn [In]. tauto.
Defined.

(** C9: a run leaves the tree as it found it, and a second run on the tree
    the first one left returns the same result, records the same errors,
    warnings and notes, prints the same lines and exits with the same
    status. *)
Theorem C9_rerun_identical : forall w : world,
  let r1 := validate_all (new_validator w) in
  let w1 := world_of (snd r1) in
  let r2 := validate_all (new_validator w1) in
  w_fs w1 = w_fs w
  /\ w_fs (snd (main w)) = w_fs w
  /\ fst r2 = fst r1
  /\ errors (snd r2) = errors (snd r1)
  /\ warnings (snd r2) = warnings (snd r1)
  /\ info (snd r2) = info (snd r1)
  /\ stdout (snd r1) = w_stdout w ++ printed (w_fs w)
  /\ stdout (snd r2) = stdout (snd r1) ++ printed (w_fs w)
  /\ fst (main w1) = fst (main w).
Proof.
  intros w r1 w1 r2.
  assert (E1 : r1 = validate_all (new_validator w)) by reflexivity.
  rewrite validate_all_new_validator in E1.
  assert (Hw1 : w1 = World (w_fs w) (w_stdout w ++ printed (w_fs w))).
  { unfold w1. rewrite E1. reflexivity. }
  assert (E2 : r2 = validate_all (new_validator w1)) by reflexivity.
  rewrite validate_all_new_validator, Hw1 in E2. cbn [w_fs w_stdout] in E2.
  assert (Hm : forall w0, main w0
      = match fst (run_checks (fresh (w_fs w0))) with
        | Ret success =>
            ((if negb success then 1
              else if nonempty (warnings (snd (run_checks (fresh (w_fs w0))))) then 0
              else 0),
             World (w_fs w0) (w_stdout w0 ++ printed (w_fs w0)))
        | Raise _ => (1, World (w_fs w0) (w_stdout w0 ++ printed (w_fs w0)))
        end).
  { intros w0. unfold main. rewrite validate_all_new_validator.
    destruct (fst (run_checks (fresh (w_fs w0)))); reflexivity. }
  rewrite !Hm, Hw1, E1, E2. cbn [fst snd w_fs w_stdout errors warnings info stdout].
  repeat split.
  - destruct (fst (run_checks (fresh (w_fs w)))); reflexivity.
  - destruct (fst (run_checks (fresh (w_fs w)))); reflexivity.
Qed.

End Sink_theorems.

Section Regex_engine.
Import Re ReSpec.

Lemma firstn_plus {A} (j m : nat) (s : list A) :
  firstn (j + m) s = firstn j s ++ firstn m (skipn j s).
Proof.
  revert s. induction j as [|j IH]; intros s; [reflexivity|].
  destruct s as [|c s]; cbn [Nat.add firstn skipn app].
  - now rewrite firstn_nil.
  - now rewrite IH.
Qed.

Lemma max_run_le f hi s : max_run f hi s <= List.length s.
Proof.
  revert hi. induction s as [|c s IH]; intros hi; cbn [max_run List.length]; [lia|].
  destruct (f c); [|lia].
  destruct hi as [[|h]|]; [lia| |]; specialize (IH (Some h)) || specialize (IH None); lia.
Qed.

Lemma max_run_within f hi s : within hi (max_run f hi s).
Proof.
  revert hi. induction s as [|c s IH]; intros hi; cbn [max_run].
  - destruct hi; cbn; [lia|exact I].
  - destruct (f c).
    + destruct hi as [[|h]|]; cbn; [lia| |exact I].
      specialize (IH (Some h)). cbn in IH. lia.
    + destruct hi; cbn; [lia|exact I].
Qed.

Lemma max_run_all f hi s j :
  j <= max_run f hi s -> Forall (fun c => f c = true) (firstn j s).
Proof.
  revert hi j. induction s as [|c s IH]; intros hi j Hj.
  - rewrite firstn_nil. constructor.
  - destruct j as [|j]; [constructor|]. cbn [max_run] in Hj. cbn [firstn].
    destruct (f c) eqn:Ec; [|lia].
    destruct hi as [[|h]|]; [lia| |]; constructor; auto; eapply IH; apply le_S_n, Hj.
Qed.

Lemma max_run_max f hi run rest :
  Forall (fun c => f c = true) run -> within hi (List.length run) ->
  List.length run <= max_run f hi (run ++ rest).
Proof.
  revert hi. induction run as [|c run IH]; intros hi Hall Hw; cbn [List.length]; [lia|].
  inversion Hall as [|? ? Hc Hall']; subst. cbn [app max_run]. rewrite Hc.
  destruct hi as [[|h]|]; cbn [within List.length] in Hw.
  - lia.
  - apply le_n_S, IH; [assumption|cbn; lia].
  - apply le_n_S, IH; [assumption|exact I].
Qed.

Lemma backtrack_Some cont lo s j n :
  backtrack cont lo s j = Some n ->
  exists j' m, j' <= j /\ lo <= j' /\ cont (skipn j' s) = Some m /\ n = j' + m.
Proof.
  induction j as [|j IH]; cbn [backtrack].
  - destruct (0 <? lo)%nat eqn:E; [discriminate|]. apply Nat.ltb_ge in E.
    destruct (cont (skipn 0 s)) as [m|] eqn:Ec; [|discriminate].
    intros [= <-]. exists 0, m. auto.
  - destruct (S j <? lo)%nat eqn:E; [discriminate|]. apply Nat.ltb_ge in E.
    destruct (cont (skipn (S j) s)) as [m|] eqn:Ec.
    + intros [= <-]. exists (S j), m. auto.
    + intros H. destruct (IH H) as (j' & m & ? & ? & ? & ?). exists j', m. auto.
Qed.

Lemma backtrack_None cont lo s j :
  backtrack cont lo s j = None ->
  forall j', lo <= j' -> j' <= j -> cont (skipn j' s) = None.
Proof.
  induction j as [|j IH]; cbn [backtrack].
  - destruct (0 <? lo)%nat eqn:E.
    + apply Nat.ltb_lt in E. intros; lia.
    + destruct (cont (skipn 0 s)) eqn:Ec; [discriminate|].
      intros _ j' _ Hj. now replace j' with 0 by lia.
  - destruct (S j <? lo)%nat eqn:E.
    + apply Nat.ltb_lt in E. intros; lia.
    + destruct (cont (skipn (S j) s)) eqn:Ec; [discriminate|].
      intros H j' Hlo Hj. destruct (Nat.eq_dec j' (S j)) as [->|Hne]; [assumption|].
      apply IH; auto. lia.
Qed.

Lemma match_here_sound ic its : forall s n,
  match_here ic its s = Some n ->
  n <= List.length s /\ denote ic its (firstn n s).
Proof.
  induction its as [|it its IH]; intros s n; cbn [match_here denote].
  - intros [= <-]. split; [lia|reflexivity].
  - intros H. apply backtrack_Some in H as (j & m & Hj & Hlo & Hm & ->).
    apply IH in Hm as [Hm Hd].
    pose proof (max_run_le (cls_matches ic (cl it)) (hi it) s) as Hle.
    rewrite length_skipn in Hm. split; [lia|].
    exists (firstn j s), (firstn m (skipn j s)).
    assert (Hlen : List.length (firstn j s) = j) by (rewrite length_firstn; lia).
    split; [apply firstn_plus|]. rewrite Hlen.
    split; [assumption|]. split.
    + pose proof (max_run_within (cls_matches ic (cl it)) (hi it) s) as Hw.
      destruct (hi it); cbn in *; [lia|exact I].
    + split; [|assumption]. eapply max_run_all; eassumption.
Qed.

Lemma match_here_complete ic its : forall tok rest,
  denote ic its tok -> exists n, match_here ic its (tok ++ rest) = Some n.
Proof.
  induction its as [|it its IH]; intros tok rest; cbn [match_here denote].
  - intros ->. eauto.
  - intros (run & rest0 & -> & Hlo & Hw & Hall & Hd).
    rewrite <- app_assoc.
    destruct (backtrack _ _ _ _) as [n|] eqn:Eb; [eauto|].
    exfalso.
    apply backtrack_None with (j' := List.length run) in Eb;
      [|assumption|now apply max_run_max].
    rewrite skipn_app, skipn_all, Nat.sub_diag in Eb. cbn [skipn app] in Eb.
    destruct (IH rest0 rest Hd) as [n Hn]. congruence.
Qed.

Lemma search_from_spec ic its s :
  search_from ic its s = true
  <-> exists tok, denote ic its tok /\ occurs_in tok s.
Proof.
  split.
  - induction s as [|c s IH]; cbn [search_from].
    + destruct (match_here ic its []) as [n|] eqn:E; [|discriminate].
      intros _. apply match_here_sound in E as [_ Hd].
      exists (firstn n []). split; [assumption|]. exists [], []. now rewrite firstn_nil.
    + destruct (match_here ic its (c :: s)) as [n|] eqn:E.
      * intros _. apply match_here_sound in E as [_ Hd].
        exists (firstn n (c :: s)). split; [assumption|].
        exists [], (skipn n (c :: s)). cbn [app]. now rewrite firstn_skipn.
      * intros H. destruct (IH H) as (tok & Hd & pre & post & ->).
        exists tok. split; [assumption|]. now exists (c :: pre), post.
  - intros (tok & Hd & pre & post & ->).
    induction pre as [|c pre IH]; cbn [app].
    + destruct (match_here_complete ic its tok post Hd) as [n Hn].
      destruct (tok ++ post); cbn [search_from]; now rewrite Hn.
    + cbn [search_from]. now destruct (match_here ic its (c :: pre ++ tok ++ post)).
Qed.

Lemma search_spec p content : search p content = true <-> has_match p content.
Proof. apply search_from_spec. Qed.

End Regex_engine.

Section Findall_facts.
Import Re ReSpec.

Lemma occurs_in_cons tok c s : occurs_in tok s -> occurs_in tok (c :: s).
Proof. intros (pre & post & ->). now exists (c :: pre), post. Qed.

Lemma occurs_in_firstn {n} (s : list ascii) : occurs_in (firstn n s) s.
Proof. exists [], (skipn n s). cbn [app]. now rewrite firstn_skipn. Qed.

Lemma findall_from_sound ic its : forall s skip m,
  In m (findall_from ic its skip s) -> denote ic its m /\ occurs_in m s.
Proof.
  induction s as [|c s IH]; intros skip m.
  - destruct skip; cbn [findall_from]; [|contradiction].
    destruct (match_here ic its []) as [n|] eqn:E; [|contradiction].
    intros [<-|[]]. split; [now apply match_here_sound in E|apply occurs_in_firstn].
  - destruct skip as [|k]; cbn [findall_from].
    + destruct (match_here ic its (c :: s)) as [n|] eqn:E.
      * intros [<-|HIn].
        -- split; [now apply match_here_sound in E|apply occurs_in_firstn].
        -- apply IH in HIn as [Hd Ho]. split; [assumption|now apply occurs_in_cons].
      * intros HIn. apply IH in HIn as [Hd Ho]. split; [assumption|now apply occurs_in_cons].
    + intros HIn. apply IH in HIn as [Hd Ho]. split; [assumption|now apply occurs_in_cons].
Qed.

Lemma findall_from_nonempty ic its s :
  SDD.nonempty (findall_from ic its 0 s) = search_from ic its s.
Proof.
  induction s as [|c s IH]; cbn [findall_from search_from].
  - now destruct (match_here ic its []).
  - destruct (match_here ic its (c :: s)); [reflexivity|apply IH].
Qed.

Lemma findall_nonempty p content :
  SDD.nonempty (findall p content) = search p content.
Proof.
  unfold findall, search. rewrite <- findall_from_nonempty.
  now destruct (findall_from _ _ 0 _).
Qed.

Lemma findall_sound p content m :
  In m (findall p content) ->
  denote (icase p) (items p) (chars m) /\ occurs_in (chars m) (chars content).
Proof.
  unfold findall. intros HIn. apply in_map_iff in HIn as (tok & <- & HIn).
  unfold chars at 1 2. rewrite list_ascii_of_string_of_list_ascii.
  eapply findall_from_sound; eassumption.
Qed.

End Findall_facts.

Section Denote_facts.
Import Re ReSpec.

Lemma denote_cons ic it its tok :
  denote ic (it :: its) tok
  <-> exists run rest, tok = run ++ rest /\ denote ic [it] run /\ denote ic its rest.
Proof.
  cbn [denote]. split.
  - intros (run & rest & -> & Hlo & Hw & Hall & Hd).
    exists run, rest. split; [reflexivity|]. split; [|assumption].
    exists run, []. now rewrite app_nil_r.
  - intros (run & rest & -> & (run' & rest' & -> & Hlo & Hw & Hall & ->) & Hd).
    rewrite app_nil_r. exists run', rest. auto.
Qed.

Lemma denote_item ic k lo hi tok :
  denote ic [Item k lo hi] tok
  <-> lo <= List.length tok /\ within hi (List.length tok)
      /\ Forall (fun c => cls_matches ic k c = true) tok.
Proof.
  cbn [denote Re.lo Re.hi Re.cl]. split.
  - intros (run & rest & -> & Hlo & Hw & Hall & ->). now rewrite app_nil_r.
  - intros (Hlo & Hw & Hall). exists tok, []. now rewrite app_nil_r.
Qed.

Lemma denote_one ic k its tok :
  denote ic (one k :: its) tok
  <-> exists c rest, tok = c :: rest /\ cls_matches ic k c = true /\ denote ic its rest.
Proof.
  rewrite denote_cons. unfold one. split.
  - intros (run & rest & -> & Hr & Hd). apply denote_item in Hr as (Hlo & Hhi & Hall).
    cbn [within] in Hhi. destruct run as [|c [|c' run]]; cbn [List.length] in *; try lia.
    inversion Hall; subst. exists c, rest. auto.
  - intros (c & rest & -> & Hc & Hd). exists [c], rest.
    split; [reflexivity|]. split; [|assumption].
    apply denote_item. cbn. repeat split; auto.
Qed.

Lemma denote_app ic its1 : forall its2 tok,
  denote ic (its1 ++ its2) tok
  <-> exists t1 t2, tok = t1 ++ t2 /\ denote ic its1 t1 /\ denote ic its2 t2.
Proof.
  induction its1 as [|it its1 IH]; intros its2 tok; cbn [app].
  - split.
    + intros H. now exists [], tok.
    + intros (t1 & t2 & -> & -> & H). exact H.
  - rewrite denote_cons. split.
    + intros (run & rest & -> & Hr & Hd). apply IH in Hd as (t1 & t2 & -> & H1 & H2).
      exists (run ++ t1), t2. rewrite app_assoc. split; [reflexivity|].
      split; [|assumption]. apply denote_cons. now exists run, t1.
    + intros (t1 & t2 & -> & H1 & H2). apply denote_cons in H1 as (run & rest & -> & Hr & Hd).
      exists run, (rest ++ t2). rewrite app_assoc. split; [reflexivity|].
      split; [assumption|]. apply IH. now exists rest, t2.
Qed.

Lemma denote_lits ic s tok :
  denote ic (lits s) tok
  <-> Forall2 (fun x c => char_eq ic x c = true) tok (chars s).
Proof.
  unfold lits, chars. revert tok.
  induction (list_ascii_of_string s) as [|c l IH]; intros tok; cbn [map].
  - cbn [denote]. split; [intros ->; constructor|now inversion 1].
  - rewrite denote_one. split.
    + intros (x & rest & -> & Hx & Hd). constructor; [exact Hx|now apply IH].
    + inversion 1 as [|x ? rest ? Hx Hr]; subst. exists x, rest.
      split; [reflexivity|]. split; [exact Hx|now apply IH].
Qed.

Lemma exact_text tok s :
  Forall2 (fun x c => char_eq false x c = true) tok (chars s) <-> tok = chars s.
Proof.
  unfold chars. revert tok.
  induction (list_ascii_of_string s) as [|c l IH]; intros tok.
  - split; [now inversion 1|intros ->; constructor].
  - split.
    + inversion 1 as [|x ? rest ? Hx Hr]; subst. cbn in Hx.
      apply Ascii.eqb_eq in Hx. subst. f_equal. now apply IH.
    + intros ->. constructor; [cbn; apply Ascii.eqb_refl|now apply IH].
Qed.

End Denote_facts.

Section Specification_check.
Import Py FS SDD Re ReSpec Specs.
Local Open Scope py_scope.

Lemma specification_loop (l : list (list string * node)) : forall acc st,
  Forall (fun e => is_text (snd e)) l ->
  for_fold l acc
    (fun '(spec_file, entry) issues_found =>
       content <- read_node entry ;;
       let clarifications := Re.findall clarification_re content in
       issues_found <-
         (if nonempty clarifications then
            (add_error ("Unresolved clarifications in " ++ path_str spec_file
                          ++ ": " ++ repr_list clarifications) ;;
             ret true)
          else ret issues_found) ;;
       let placeholders := Re.findall placeholder_re content in
       (if nonempty placeholders then
          add_warning ("Placeholders in " ++ path_str spec_file
                         ++ ": " ++ repr_list placeholders)
        else ret tt) ;;
       ret issues_found) st
  = (Ret (acc || has_clarification l),
     emit (clar_errors l) (placeholder_warnings l) [] [] st).
Proof.
  induction l as [|[p n] l IH]; intros acc st Hall.
  - cbn. unfold ret. now rewrite orb_false_r, emit_nil.
  - inversion Hall as [|? ? [t Ht] Hall']; subst. cbn [snd] in Ht. subst n.
    rewrite for_fold_cons, bind_eq. cbv beta iota zeta.
    rewrite bind_eq. cbn [read_node]. unfold ret at 1.
    unfold has_clarification, clar_errors, placeholder_warnings.
    cbn [existsb flat_map]. unfold clarifications at 1 2 3, placeholders at 1 2.
    cbn [fst snd text_of].
    rewrite bind_eq.
    destruct (nonempty (findall clarification_re t)).
    + rewrite bind_eq, add_error_emit. unfold ret at 1.
      rewrite bind_eq.
      destruct (nonempty (findall placeholder_re t)).
      * rewrite add_warning_emit. unfold ret at 1.
        rewrite IH by assumption. rewrite !emit_emit. cbn [app].
        now rewrite orb_true_r.
      * unfold ret at 1 2. rewrite IH by assumption. rewrite !emit_emit. cbn [app].
        now rewrite orb_true_r.
    + unfold ret at 1. rewrite bind_eq.
      destruct (nonempty (findall placeholder_re t)).
      * rewrite add_warning_emit. unfold ret at 1.
        rewrite IH by assumption. rewrite !emit_emit. cbn [app orb].
        reflexivity.
      * unfold ret at 1 2. rewrite IH by assumption. cbn [app orb]. reflexivity.
Qed.

Lemma check_specifications_absent st :
  lookup (fs st) (path_of "specs") = None ->
  check_specifications st
  = (Ret true, emit [] [] ["No specs directory yet (expected for new repo)"] [] st).
Proof.
  intros H. unfold check_specifications. rewrite bind_eq, get_eq, H.
  rewrite bind_eq, add_info_emit. reflexivity.
Qed.

Lemma check_specifications_present st :
  present (fs st) "specs" = true ->
  Forall (fun e => is_text (snd e)) (md_entries (fs st)) ->
  check_specifications st
  = (Ret (negb (has_clarification (md_entries (fs st)))),
     emit (clar_errors (md_entries (fs st)))
          (placeholder_warnings (md_entries (fs st))) [] [] st).
Proof.
  unfold present, md_entries, check_specifications.
  rewrite bind_eq, get_eq.
  destruct (lookup (fs st) (path_of "specs")) as [d|]; [|discriminate].
  intros _ Hall. rewrite bind_eq, specification_loop by assumption.
  reflexivity.
Qed.

End Specification_check.

Section Tree_facts.
Import Py FS Tree.

Lemma node_induction (P : node -> Prop) :
  (forall c, P (File c)) ->
  (forall es, Forall (fun e => P (snd e)) es -> P (Dir es)) ->
  forall n, P n.
Proof.
  intros HF HD.
  exact (fix go (n : node) : P n :=
           match n with
           | File c => HF c
           | Dir es =>
               HD es ((fix all (l : list (string * node)) : Forall (fun e => P (snd e)) l :=
                         match l with
                         | [] => Forall_nil _
                         | e :: l' => Forall_cons e (go (snd e)) (all l')
                         end) es)
           end).
Qed.

Lemma rglob_Dir suffix top es :
  rglob suffix top (Dir es)
  = map (fun e => (top ++ [fst e], snd e)) (filter (fun e => endswith (fst e) suffix) es)
    ++ flat_map (fun e => rglob suffix (top ++ [fst e]) (snd e)) es.
Proof.
  cbn [rglob]. f_equal.
  induction es as [|[d c] es IH]; [reflexivity|].
  cbn [flat_map fst snd]. now rewrite IH.
Qed.

Lemma at_path_file c q n : at_path (File c) q n -> q = [] /\ n = File c.
Proof. inversion 1; subst; auto. Qed.

Lemma rglob_spec suffix : forall d top p n,
  In (p, n) (rglob suffix top d)
  <-> exists q x, p = top ++ q ++ [x] /\ at_path d (q ++ [x]) n
                  /\ endswith x suffix = true.
Proof.
  induction d as [c|es IH] using node_induction; intros top p n.
  - cbn [rglob In]. split; [contradiction|].
    intros (q & x & _ & H & _). apply at_path_file in H as [H _].
    now destruct q.
  - rewrite rglob_Dir, in_app_iff, in_map_iff, in_flat_map. split.
    + intros [([x c] & E & HIn)|([x c] & HIn & Hr)].
      * cbn [fst snd] in E. injection E as <- <-.
        apply filter_In in HIn as [HIn Hs]. cbn [fst] in Hs.
        exists [], x. cbn [app]. split; [reflexivity|]. split; [|assumption].
        eapply at_step; [eassumption|constructor].
      * cbn [fst snd] in Hr.
        rewrite Forall_forall in IH. apply (IH (x, c) HIn) in Hr as (q & y & -> & Hp & Hs).
        exists (x :: q), y. rewrite <- app_assoc. cbn [app].
        split; [reflexivity|]. split; [|assumption].
        eapply at_step; eassumption.
    + intros (q & x & -> & Hp & Hs). destruct q as [|x0 q]; cbn [app] in Hp.
      * inversion Hp as [|? ? c ? ? HIn Hc]; subst. inversion Hc; subst.
        left. exists (x, n). split; [reflexivity|].
        apply filter_In. split; assumption.
      * inversion Hp as [|? ? c ? ? HIn Hc]; subst.
        right. exists (x0, c). split; [assumption|]. cbn [fst snd].
        rewrite Forall_forall in IH. apply (IH (x0, c) HIn).
        exists q, x. cbn [app]. rewrite <- app_assoc. auto.
Qed.

End Tree_facts.

Section Marker_facts.
Import Py FS SDD Re ReSpec Specs.

Lemma not_bracket c :
  cls_matches false (NoneOf ["]"%char]) c = true <-> c <> "]"%char.
Proof.
  cbn. rewrite orb_false_r, negb_true_iff. split.
  - intros H ->. now rewrite Ascii.eqb_refl in H.
  - intros H. now apply Ascii.eqb_neq.
Qed.

Lemma marker_denote tag tok :
  denote false (lits tag ++ [at_least 0 (NoneOf ["]"%char]); one (Lit "]")]) tok
  <-> marker tag tok.
Proof.
  rewrite denote_app. unfold marker. split.
  - intros (t1 & t2 & -> & H1 & H2).
    apply denote_lits, exact_text in H1. subst t1.
    apply denote_cons in H2 as (body & rest & -> & Hb & Hr).
    apply denote_item in Hb as (_ & _ & Hb).
    apply denote_one in Hr as (c & rest' & -> & Hc & Hn). cbn [denote] in Hn. subst rest'.
    cbn in Hc. apply Ascii.eqb_eq in Hc. subst c.
    exists body. split; [reflexivity|].
    eapply Forall_impl; [|exact Hb]. intros a Ha. now apply not_bracket.
  - intros (body & -> & Hb). exists (chars tag), (body ++ chars "]").
    split; [reflexivity|]. split; [now apply denote_lits, exact_text|].
    apply denote_cons. exists body, (chars "]"). split; [reflexivity|]. split.
    + apply denote_item. split; [lia|]. split; [exact I|].
      eapply Forall_impl; [|exact Hb]. intros a Ha. now apply not_bracket.
    + apply denote_one. exists "]"%char, []. repeat split.
Qed.

End Marker_facts.

Section Specification_theorem.
Import Py FS SDD Re ReSpec Specs Tree.

Lemma marker_found tag content m :
  In m (findall (Pattern false (lits tag ++ [at_least 0 (NoneOf ["]"%char]); one (Lit "]")]))
                content) ->
  marker tag (chars m) /\ occurs_in (chars m) (chars content).
Proof.
  intros H. apply findall_sound in H as [Hd Ho]. cbn [icase items] in Hd.
  split; [now apply marker_denote|assumption].
Qed.

Lemma marker_reported tag content :
  findall (Pattern false (lits tag ++ [at_least 0 (NoneOf ["]"%char]); one (Lit "]")]))
          content <> []
  <-> exists tok, marker tag tok /\ occurs_in tok (chars content).
Proof.
  set (p := Pattern false _).
  assert (E : findall p content <> [] <-> search p content = true).
  { rewrite <- findall_nonempty. destruct (findall p content); cbn; split; congruence. }
  rewrite E, search_spec. unfold has_match. cbn [icase items p].
  split; intros (tok & H1 & H2); exists tok; (split; [now apply marker_denote|assumption]).
Qed.

Lemma in_clar_errors l e :
  In e l -> clarifications e <> [] ->
  In ("Unresolved clarifications in " ++ path_str (fst e) ++ ": "
        ++ repr_list (clarifications e))%string (clar_errors l).
Proof.
  intros HIn Hne. unfold clar_errors. apply in_flat_map. exists e. split; [assumption|].
  destruct (clarifications e); [congruence|]. now left.
Qed.

Lemma in_placeholder_warnings l e :
  In e l -> placeholders e <> [] ->
  In ("Placeholders in " ++ path_str (fst e) ++ ": "
        ++ repr_list (placeholders e))%string (placeholder_warnings l).
Proof.
  intros HIn Hne. unfold placeholder_warnings. apply in_flat_map. exists e. split; [assumption|].
  destruct (placeholders e); [congruence|]. now left.
Qed.

(** X13: without a specs directory the specification scanner returns true
    and records one note.  With one, when the entries named *.md beneath
    it are readable text files, it records for each file with
    clarification markers one error listing the matched strings and for
    each file with placeholder markers one warning listing them, and
    returns true if and only if no file holds a clarification marker.
    The entries are those beneath the specs root whose name ends with
    .md; every matched string is a marker, from the tag to the first
    closing bracket, occurring in the file, and a file has a match exactly
    when such a marker occurs in it. *)
Theorem X13_specifications_on_readable_files : forall st : state,
  let l := md_entries (fs st) in
  (present (fs st) "specs" = false ->
     check_specifications st
     = (Ret true, emit [] [] ["No specs directory yet (expected for new repo)"] [] st))
  /\ (present (fs st) "specs" = true -> Forall (fun e => is_text (snd e)) l ->
      check_specifications st
      = (Ret (negb (has_clarification l)),
         emit (clar_errors l) (placeholder_warnings l) [] [] st)
      /\ (forall e, In e l -> clarifications e <> [] ->
            In ("Unresolved clarifications in " ++ path_str (fst e) ++ ": "
                  ++ repr_list (clarifications e))%string (clar_errors l))
      /\ (forall e, In e l -> placeholders e <> [] ->
            In ("Placeholders in " ++ path_str (fst e) ++ ": "
                  ++ repr_list (placeholders e))%string (placeholder_warnings l))
      /\ (negb (has_clarification l) = true
          <-> forall e, In e l ->
                ~ exists tok, marker "[NEEDS CLARIFICATION" tok
                              /\ occurs_in tok (chars (text_of (snd e)))))
  /\ (forall d p n, lookup (fs st) (path_of "specs") = Some d ->
        (In (p, n) l
         <-> exists q x, p = path_of "specs" ++ q ++ [x]
                         /\ at_path d (q ++ [x]) n /\ endswith x ".md" = true))
  /\ (forall content m, In m (findall clarification_re content) ->
        marker "[NEEDS CLARIFICATION" (chars m) /\ occurs_in (chars m) (chars content))
  /\ (forall content, findall clarification_re content <> []
        <-> exists tok, marker "[NEEDS CLARIFICATION" tok /\ occurs_in tok (chars content))
  /\ (forall content m, In m (findall placeholder_re content) ->
        marker "[PLACEHOLDER" (chars m) /\ occurs_in (chars m) (chars content))
  /\ (forall content, findall placeholder_re content <> []
        <-> exists tok, marker "[PLACEHOLDER" tok /\ occurs_in tok (chars content)).
Proof.
  intros st l. split.
  { intros H. apply check_specifications_absent. unfold present in H.
    now destruct (lookup (fs st) (path_of "specs")). }
  split.
  { intros Hp Hall. split; [now apply check_specifications_present|].
    split; [intros e; apply in_clar_errors|].
    split; [intros e; apply in_placeholder_warnings|].
    rewrite negb_true_iff. unfold has_clarification. split.
    - intros Hn e HIn Hm.
      apply (marker_reported "[NEEDS CLARIFICATION") in Hm.
      fold clarification_re in Hm. fold (clarifications e) in Hm.
      assert (Hx : existsb (fun e => nonempty (clarifications e)) l = true).
      { apply existsb_exists. exists e. split; [assumption|].
        now destruct (clarifications e). }
      congruence.
    - intros Hn. destruct (existsb _ l) eqn:Ex; [|reflexivity]. exfalso.
      apply existsb_exists in Ex as (e & HIn & He).
      apply (Hn e HIn). apply (marker_reported "[NEEDS CLARIFICATION").
      fold clarification_re. fold (clarifications e).
      now destruct (clarifications e). }
  split.
  { intros d p n Hd. unfold l, md_entries. rewrite Hd. apply rglob_spec. }
  split; [intros content m; apply marker_found|].
  split; [intros content; apply marker_reported|].
  split; [intros content m; apply marker_found|].
  intros content; apply marker_reported.
Qed.

Lemma X13_specifications_on_readable_files_witness :
  let st := new_validator (World Samples.repo_specs []) in
  let st' := new_validator (World Samples.repo_placeholder []) in
  present (fs st) "specs" = true
  /\ Forall (fun e => is_text (snd e)) (md_entries (fs st))
  /\ check_specifications st
     = (Ret false,
        State Samples.repo_specs []
              ["Unresolved clarifications in specs/feature.md: ['[NEEDS CLARIFICATION: foo]']"]
              ["Placeholders in specs/drafts/plan.md: ['[PLACEHOLDER: bar]']"]
              [])
  /\ check_specifications st'
     = (Ret true,
        State Samples.repo_placeholder [] []
              ["Placeholders in specs/plan.md: ['[PLACEHOLDER: bar]']"] []).
Proof.
  assert (H1 : present Samples.repo_specs "specs" = true) by reflexivity.
  assert (H2 : Forall (fun e => is_text (snd e)) (md_entries Samples.repo_specs)).
  { repeat constructor; eexists; reflexivity. }
  assert (H3 : present Samples.repo_placeholder "specs" = true) by reflexivity.
  assert (H4 : Forall (fun e => is_text (snd e)) (md_entries Samples.repo_placeholder)).
  { repeat constructor; eexists; reflexivity. }
  split; [exact H1|]. split; [exact H2|]. split.
  - destruct (X13_specifications_on_readable_files (new_validator (World Samples.repo_specs [])))
      as (_ & H & _).
    rewrite (proj1 (H H1 H2)). reflexivity.
  - destruct (X13_specifications_on_readable_files (new_validator (World Samples.repo_placeholder [])))
      as (_ & H & _).
    rewrite (proj1 (H H3 H4)). reflexivity.
Defined.

(** C6 (the code departs from it): a specification that does not decode
    as text makes the scanner raise.  Listed before a specification with a
    clarification marker, it keeps that marker from being reported at all;
    listed after it, the error is recorded but the scanner still returns
    no boolean.  Either way the exception ends the run. *)
Theorem C6_unreadable_file_hides_markers :
  let r1 := Failures.repo_binary_then_marker in
  let r2 := Failures.repo_marker_then_binary in
  let st1 := new_validator (World r1 []) in
  let st2 := new_validator (World r2 []) in
  file_text r1 "specs/b.md" = Some "[NEEDS CLARIFICATION: foo]"
  /\ findall clarification_re "[NEEDS CLARIFICATION: foo]" = ["[NEEDS CLARIFICATION: foo]"]
  /\ check_specifications st1 = (Raise UnicodeDecodeError, st1)
  /\ errors (snd (check_specifications st1)) = []
  /\ fst (check_specifications st2) = Raise UnicodeDecodeError
  /\ errors (snd (check_specifications st2))
     = ["Unresolved clarifications in specs/b.md: ['[NEEDS CLARIFICATION: foo]']"]
  /\ fst (validate_all st1) = Raise UnicodeDecodeError
  /\ fst (main (World r1 [])) = 1
  /\ fst (main (World r2 [])) = 1.
Proof. vm_compute. repeat split; reflexivity. Qed.

End Specification_theorem.

Section Security_check.
Import Py FS SDD Re ReSpec Secrets Tree.
Local Open Scope py_scope.

Lemma pattern_loop (p : list string) (content : string) (l : list (pattern * string)) :
  forall acc st,
  for_fold l acc (fun '(pattern, desc) issues_found =>
    if Re.search pattern content then
      (add_error ("Potential " ++ desc ++ " in " ++ path_str p) ;;
       ret true)
    else ret issues_found) st
  = (Ret (acc || nonempty (filter (fun pd => search (fst pd) content) l)),
     emit (map (fun pd => secret_error (snd pd) p)
               (filter (fun pd => search (fst pd) content) l)) [] [] [] st).
Proof.
  induction l as [|[pat desc] l IH]; intros acc st.
  - cbn. unfold ret. now rewrite orb_false_r, emit_nil.
  - rewrite for_fold_cons, bind_eq. cbv beta iota. cbn [filter fst snd].
    destruct (search pat content).
    + rewrite bind_eq, add_error_emit. unfold ret at 1.
      rewrite IH, emit_emit. cbn [map app nonempty snd]. now rewrite orb_true_r.
    + unfold ret at 1. now rewrite IH.
Qed.

Lemma nonempty_app {A} (l1 l2 : list A) :
  nonempty (l1 ++ l2) = nonempty l1 || nonempty l2.
Proof. now destruct l1. Qed.

Lemma nonempty_map {A B} (f : A -> B) (l : list A) : nonempty (map f l) = nonempty l.
Proof. now destruct l. Qed.

Lemma file_loop (top : list string) (files : list (string * node)) : forall acc st,
  Forall (fun e => is_dir (snd e) = false) files ->
  for_fold files acc (fun '(file, entry) issues_found =>
    if mem file exclude_files then ret issues_found
    else
      let file_path := top ++ [file] in
      if endswith_any file text_suffixes then
        try_except
          (content <- read_node entry ;;
           for_fold secret_patterns issues_found (fun '(pattern, desc) issues_found =>
             if Re.search pattern content then
               (add_error ("Potential " ++ desc ++ " in " ++ path_str file_path) ;;
                ret true)
             else ret issues_found))
          read_failure
          (ret issues_found)
      else ret issues_found) st
  = (Ret (acc || nonempty (flat_map hits (map (fun e => (top ++ [fst e], snd e))
                                             (filter (fun e => eligible (fst e)) files)))),
     emit (flat_map hits (map (fun e => (top ++ [fst e], snd e))
                              (filter (fun e => eligible (fst e)) files))) [] [] [] st).
Proof.
  induction files as [|[file entry] files IH]; intros acc st Hall.
  - cbn. unfold ret. now rewrite orb_false_r, emit_nil.
  - inversion Hall as [|? ? Hf Hall']; subst. cbn [snd] in Hf.
    rewrite for_fold_cons, bind_eq. cbv beta iota zeta.
    cbn [filter fst].
    destruct (mem file exclude_files) eqn:Em.
    { assert (El : eligible file = false) by (unfold eligible; now rewrite Em).
      rewrite El. unfold ret at 1. now rewrite IH by assumption. }
    destruct (endswith_any file text_suffixes) eqn:Es.
    2:{ assert (El : eligible file = false) by (unfold eligible; now rewrite Em, Es).
        rewrite El. unfold ret at 1. now rewrite IH by assumption. }
    assert (El : eligible file = true) by (unfold eligible; now rewrite Em, Es).
    rewrite El. cbn [map flat_map fst snd]. unfold hits at 1 3. cbn [fst snd].
    unfold try_except. rewrite bind_eq.
    destruct entry as [[t| |]|]; [| | |discriminate]; cbn [read_node].
    + unfold ret at 1. rewrite pattern_loop.
      rewrite IH by assumption. rewrite emit_emit. cbn [app].
      now rewrite nonempty_app, nonempty_map, orb_assoc.
    + unfold raise. cbn [read_failure]. unfold ret at 1.
      now rewrite IH by assumption.
    + unfold raise. cbn [read_failure]. unfold ret at 1.
      now rewrite IH by assumption.
Qed.

Lemma walk_loop (ys : list (list string * list string * list (string * node))) :
  forall acc st,
  Forall (fun y => Forall (fun e => is_dir (snd e) = false) (snd y)) ys ->
  for_fold ys acc
    (fun '(top, dirs, files) issues_found =>
       for_fold files issues_found (fun '(file, entry) issues_found =>
         if mem file exclude_files then ret issues_found
         else
           let file_path := top ++ [file] in
           if endswith_any file text_suffixes then
             try_except
               (content <- read_node entry ;;
                for_fold secret_patterns issues_found (fun '(pattern, desc) issues_found =>
                  if Re.search pattern content then
                    (add_error ("Potential " ++ desc ++ " in " ++ path_str file_path) ;;
                     ret true)
                  else ret issues_found))
               read_failure
               (ret issues_found)
           else ret issues_found)) st
  = (Ret (acc || nonempty (flat_map hits
            (flat_map (fun y => map (fun e => (fst (fst y) ++ [fst e], snd e))
                                    (filter (fun e => eligible (fst e)) (snd y))) ys))),
     emit (flat_map hits
            (flat_map (fun y => map (fun e => (fst (fst y) ++ [fst e], snd e))
                                    (filter (fun e => eligible (fst e)) (snd y))) ys))
          [] [] [] st).
Proof.
  induction ys as [|[[top dirs] files] ys IH]; intros acc st Hall.
  - cbn. unfold ret. now rewrite orb_false_r, emit_nil.
  - inversion Hall as [|? ? Hf Hall']; subst. cbn [snd] in Hf.
    rewrite for_fold_cons, bind_eq. cbv beta iota.
    rewrite (file_loop top files acc st Hf).
    rewrite IH by assumption. rewrite emit_emit.
    cbn [flat_map fst snd app]. rewrite flat_map_app, nonempty_app, orb_assoc.
    reflexivity.
Qed.

Lemma os_walk_Dir keep top es :
  os_walk keep top (Dir es)
  = (top, map fst (filter (fun e => is_dir (snd e) && keep (fst e)) es),
     filter (fun e => negb (is_dir (snd e))) es)
      :: flat_map (fun e => if is_dir (snd e) && keep (fst e)
                            then os_walk keep (top ++ [fst e]) (snd e) else []) es.
Proof.
  cbn [os_walk]. f_equal.
  induction es as [|[d c] es IH]; [reflexivity|].
  cbn [flat_map fst snd]. now rewrite IH.
Qed.

Lemma os_walk_files keep : forall n top,
  Forall (fun y => Forall (fun e => is_dir (snd e) = false) (snd y)) (os_walk keep top n).
Proof.
  induction n as [c|es IH] using node_induction; intros top.
  - constructor.
  - rewrite os_walk_Dir. constructor.
    + cbn [snd]. apply Forall_forall. intros e He. apply filter_In in He as [_ He].
      now apply negb_true_iff.
    + apply Forall_flat_map. rewrite Forall_forall in *. intros e He.
      destruct (is_dir (snd e) && keep (fst e)); [|constructor].
      apply (IH e He).
Qed.

Lemma check_security_eq st :
  check_security st
  = (Ret (negb (nonempty (secret_errors (fs st)))),
     emit (secret_errors (fs st)) []
          (if nonempty (secret_errors (fs st)) then []
           else ["No hardcoded secrets detected"]) [] st).
Proof.
  unfold check_security. rewrite bind_eq, get_eq.
  rewrite bind_eq.
  change (fun d : string => negb (mem d exclude_dirs)) with keep.
  rewrite walk_loop by apply os_walk_files.
  fold (scanned (fs st)). fold (secret_errors (fs st)). cbn [orb].
  rewrite bind_eq.
  destruct (nonempty (secret_errors (fs st))); cbn [negb].
  - unfold ret. reflexivity.
  - rewrite add_info_emit. unfold ret. rewrite emit_emit. cbn [app].
    now rewrite app_nil_r.
Qed.

End Security_check.

Section Walk_facts.
Import Py FS SDD Re ReSpec Secrets Tree.





End Walk_facts.

Section Prune_facts.
Import Py FS SDD Re ReSpec Secrets Tree.








End Prune_facts.

Section Class_facts.
Import Py Re ReSpec Shapes.










End Class_facts.

Section Shape_facts.
Import Py SDD Re ReSpec Shapes.










End Shape_facts.

Section Security_theorem.
Import Py FS SDD Re ReSpec Secrets Tree Shapes.







End Security_theorem.

Section Pattern_theorem.
Import Py FS SDD Re ReSpec Secrets Tree Shapes.




End Pattern_theorem.

Section Errors_fail_the_run.
Import Py FS SDD Sink.
Local Open Scope py_scope.

Lemma for_fold_invariant {A Acc} (Inv : Acc -> state -> Prop) (l : list A)
      (body : A -> Acc -> M Acc) :
  (forall x acc st, Inv acc st ->
     match body x acc st with
     | (Ret acc', st') => Inv acc' st'
     | (Raise _, _) => True
     end) ->
  forall acc st, Inv acc st ->
    match for_fold l acc body st with
    | (Ret acc', st') => Inv acc' st'
    | (Raise _, _) => True
    end.
Proof.
  intros Hb. induction l as [|x l IH]; intros acc st HI.
  - exact HI.
  - rewrite for_fold_cons, bind_eq. specialize (Hb x acc st HI).
    destruct (body x acc st) as [[acc'|e] st']; [|exact I]. now apply IH.
Qed.

Lemma quiet_of_invariant (c : M bool) :
  (forall st, match c st with
              | (Ret b, st') => b = true -> errors st' = errors st
              | (Raise _, _) => True
              end) -> quiet c.
Proof.
  intros H st Hret. specialize (H st).
  destruct (c st) as [[b|e] st']; cbn [fst snd] in *; [|discriminate].
  injection Hret as ->. now apply H.
Qed.

Lemma quiet_directory : quiet check_directory_structure.
Proof.
  intros st. rewrite check_directory_structure_eq. cbn [fst snd].
  intros [= H]. apply negb_true_iff, nonempty_false in H. rewrite H.
  cbn [map]. apply app_nil_r.
Qed.

Lemma quiet_governance : quiet check_governance_files.
Proof.
  apply quiet_of_invariant. intros st. unfold check_governance_files.
  apply (for_fold_invariant (fun b st' => b = true -> errors st' = errors st));
    [|reflexivity].
  intros [f secs] acc st0 HI. rewrite bind_eq. unfold path_exists at 1.
  destruct (present (fs st0) f); cbn [negb].
  - rewrite bind_eq.
    destruct (read_text_cases f st0) as [(t & _ & ->)|(_ & e & ->)]; [|exact I].
    rewrite section_loop. intros Hb. apply andb_true_iff in Hb as [Hb _].
    rewrite errors_emit, app_nil_r. auto.
  - rewrite bind_eq, add_error_emit. unfold ret. discriminate.
Qed.

Lemma quiet_agent_contexts : quiet check_agent_contexts.
Proof.
  apply quiet_of_invariant. intros st. unfold check_agent_contexts.
  apply (for_fold_invariant (fun b st' => b = true -> errors st' = errors st));
    [|reflexivity].
  intros f acc st0 HI. rewrite bind_eq. unfold path_exists at 1.
  destruct (present (fs st0) f); cbn [negb].
  - rewrite bind_eq.
    destruct (read_text_cases f st0) as [(t & _ & ->)|(_ & e & ->)]; [|exact I].
    rewrite context_file_step. intros Hb. rewrite errors_emit, app_nil_r. auto.
  - rewrite bind_eq, add_error_emit. unfold ret. discriminate.
Qed.

Lemma quiet_specifications : quiet check_specifications.
Proof.
  apply quiet_of_invariant. intros st. unfold check_specifications.
  rewrite bind_eq, get_eq.
  destruct (lookup (fs st) (path_of "specs")) as [d|].
  - rewrite bind_eq.
    pose proof (for_fold_invariant
                  (fun b st' => b = false -> errors st' = errors st)
                  (rglob ".md" (path_of "specs") d)) as H.
    match goal with
    | |- context [for_fold _ false ?body st] => specialize (H body)
    end.
    match type of H with
    | ?P -> _ => assert (Hbody : P); [|specialize (H Hbody false st (fun _ => eq_refl))]
    end.
    { intros [p n] acc st0 HI. rewrite bind_eq.
      destruct n as [[t| |]|]; cbn [read_node]; unfold raise; try exact I.
      unfold ret at 1. cbv zeta. rewrite bind_eq.
      destruct (nonempty (Re.findall clarification_re t)).
      - rewrite bind_eq, add_error_emit. unfold ret at 1. rewrite bind_eq.
        destruct (nonempty (Re.findall placeholder_re t));
          [rewrite add_warning_emit|unfold ret at 1]; unfold ret; discriminate.
      - unfold ret at 1. rewrite bind_eq.
        destruct (nonempty (Re.findall placeholder_re t)).
        + rewrite add_warning_emit. unfold ret. intros Hb.
          rewrite errors_emit, app_nil_r. auto.
        + unfold ret. exact HI. }
    destruct (for_fold _ false _ st) as [[b|e] st']; [|exact I].
    unfold ret. intros Hb. apply negb_true_iff in Hb. auto.
  - rewrite bind_eq, add_info_emit. unfold ret. intros _.
    rewrite errors_emit. apply app_nil_r.
Qed.

Lemma quiet_task_traceability : quiet check_task_traceability.
Proof.
  intros st _. unfold check_task_traceability. rewrite bind_eq. unfold path_exists.
  destruct (present (fs st) ".git"); cbn [negb];
    rewrite bind_eq, add_info_emit; unfold ret; cbn [snd];
    rewrite errors_emit; apply app_nil_r.
Qed.

Lemma documentation_loop (l : list string) : forall acc st,
  exists acc' w,
    for_fold l acc (fun doc missing =>
      e <- path_exists doc ;;
      if negb e then
        (add_warning ("Missing documentation: " ++ doc) ;;
         ret (missing ++ [doc]))
      else ret missing) st
    = (Ret acc', emit [] w [] [] st).
Proof.
  induction l as [|d l IH]; intros acc st.
  - exists acc, []. cbn. unfold ret. now rewrite emit_nil.
  - rewrite for_fold_cons, bind_eq. rewrite bind_eq. unfold path_exists at 1.
    destruct (present (fs st) d); cbn [negb].
    + unfold ret at 1. apply IH.
    + rewrite bind_eq, add_warning_emit. unfold ret at 1.
      destruct (IH (acc ++ [d]) (emit [] ["Missing documentation: " ++ d]%string [] [] st))
        as (acc' & w & ->).
      rewrite emit_emit. eauto.
Qed.

Lemma quiet_documentation : quiet check_documentation.
Proof.
  intros st _. unfold check_documentation. rewrite bind_eq.
  destruct (documentation_loop required_docs [] st) as (acc' & w & ->).
  rewrite bind_eq. unfold path_exists at 1. rewrite bind_eq.
  destruct (present _ "CHANGELOG.md"); cbn [negb];
    [unfold ret|rewrite add_info_emit; unfold ret]; cbn [snd];
    rewrite ?errors_emit, ?app_nil_r; reflexivity.
Qed.

Lemma quiet_security : quiet check_security.
Proof.
  intros st. rewrite check_security_eq. cbn [fst snd].
  intros [= H]. apply negb_true_iff, nonempty_false in H. rewrite H.
  apply app_nil_r.
Qed.

Lemma quiet_checks : Forall (fun c => quiet (snd c)) checks.
Proof.
  unfold checks. repeat constructor; cbn [snd].
  - apply quiet_directory.
  - apply quiet_governance.
  - apply quiet_agent_contexts.
  - apply quiet_specifications.
  - apply quiet_task_traceability.
  - apply quiet_documentation.
  - apply quiet_security.
Qed.

Lemma for_fold_invariant_in {A Acc} (Inv : Acc -> state -> Prop) (l : list A)
      (body : A -> Acc -> M Acc) :
  Forall (fun x => forall acc st, Inv acc st ->
            match body x acc st with
            | (Ret acc', st') => Inv acc' st'
            | (Raise _, _) => True
            end) l ->
  forall acc st, Inv acc st ->
    match for_fold l acc body st with
    | (Ret acc', st') => Inv acc' st'
    | (Raise _, _) => True
    end.
Proof.
  induction 1 as [|x l Hx Hl IH]; intros acc st HI.
  - exact HI.
  - rewrite for_fold_cons, bind_eq. specialize (Hx acc st HI).
    destruct (body x acc st) as [[acc'|e] st']; [|exact I]. now apply IH.
Qed.

Lemma run_checks_quiet : quiet run_checks.
Proof.
  apply quiet_of_invariant. intros st. unfold run_checks.
  rewrite bind_eq, print_emit.
  apply (for_fold_invariant_in (fun b st' => b = true -> errors st' = errors st));
    [|intros _; rewrite errors_emit; apply app_nil_r].
  eapply Forall_impl; [|apply quiet_checks].
  intros [name f] Hq acc st0 HI. cbn [snd] in Hq.
  rewrite bind_eq, print_emit. rewrite bind_eq.
  specialize (Hq (emit [] [] [] [("Checking " ++ name ++ "...")%string] st0)).
  destruct (f _) as [[passed|e] st1]; cbn [fst snd] in Hq; [|exact I].
  cbv zeta. rewrite bind_eq, print_emit. unfold ret.
  intros Hb. apply andb_true_iff in Hb as [-> ->].
  rewrite errors_emit, app_nil_r, (Hq eq_refl), errors_emit, app_nil_r. auto.
Qed.

(** A run that succeeds has recorded no error: every error fails the run. *)
Lemma success_implies_no_errors (w : world) :
  fst (main w) = 0 -> errors (snd (validate_all (new_validator w))) = [].
Proof.
  unfold main. intros H.
  assert (Hret : fst (validate_all (new_validator w)) = Ret true).
  { destruct (validate_all (new_validator w)) as [[[]|e] st]; cbn in *; congruence. }
  clear H. rewrite validate_all_eq in *.
  pose proof (run_checks_quiet (new_validator w)) as Hq.
  destruct (run_checks (new_validator w)) as [[b|e] st1]; cbn [fst snd] in *;
    [|discriminate].
  injection Hret as ->. rewrite errors_emit, app_nil_r. now apply Hq.
Qed.

End Errors_fail_the_run.

(* ================================================================= *)
(** * Further properties of the validator *)

Section Documentation_check.
Import Py FS SDD Docs.
Local Open Scope py_scope.

Lemma documentation_loop_eq (l : list string) : forall acc st,
  for_fold l acc (fun doc missing =>
    e <- path_exists doc ;;
    if negb e then
      (add_warning ("Missing documentation: " ++ doc) ;;
       ret (missing ++ [doc]))
    else ret missing) st
  = (Ret (acc ++ filter (fun d => negb (present (fs st) d)) l),
     emit [] (map doc_warning (filter (fun d => negb (present (fs st) d)) l)) [] [] st).
Proof.
  induction l as [|d l IH]; intros acc st.
  - cbn [for_fold filter map]. unfold ret. now rewrite app_nil_r, emit_nil.
  - rewrite for_fold_cons, !bind_eq. cbn [filter].
    unfold path_exists at 1.
    destruct (present (fs st) d) eqn:E; cbn [negb].
    + unfold ret at 1. apply IH.
    + rewrite bind_eq, add_warning_emit. unfold ret at 1.
      rewrite IH, fs_emit, emit_emit.
      cbn [map app]. now rewrite <- app_assoc.
Qed.

Lemma check_documentation_eq st :
  check_documentation st
  = (Ret (negb (nonempty (missing_docs (fs st)))),
     emit [] (map doc_warning (missing_docs (fs st))) (changelog_note (fs st)) [] st).
Proof.
  unfold check_documentation.
  rewrite bind_eq, documentation_loop_eq. fold (missing_docs (fs st)). cbn [app].
  rewrite bind_eq. unfold path_exists at 1. rewrite fs_emit.
  unfold changelog_note. rewrite bind_eq.
  assert (Hl : (List.length (missing_docs (fs st)) =? 0)%nat
               = negb (nonempty (missing_docs (fs st)))).
  { now destruct (missing_docs (fs st)). }
  destruct (present (fs st) "CHANGELOG.md"); cbn [negb].
  - unfold ret. now rewrite Hl.
  - rewrite add_info_emit. unfold ret. rewrite emit_emit. cbn [app].
    now rewrite app_nil_r, Hl.
Qed.

(** X1: the documentation check records one warning "Missing
    documentation: D" for each of README.md, LICENSE and CONTRIBUTING.md
    that does not exist, in that order, and never an error; it records the
    changelog note exactly when CHANGELOG.md does not exist, and that file
    has no influence on the result: the check returns true if and only if
    the three required documents exist. *)
Theorem X1_documentation_check : forall st : state,
  let missing := missing_docs (fs st) in
  check_documentation st
  = (Ret (negb (nonempty missing)),
     emit [] (map doc_warning missing) (changelog_note (fs st)) [] st)
  /\ errors (snd (check_documentation st)) = errors st
  /\ (forall D, In D required_docs -> present (fs st) D = false ->
        In ("Missing documentation: " ++ D)%string
           (warnings (snd (check_documentation st))))
  /\ (fst (check_documentation st) = Ret true
      <-> forall D, In D required_docs -> present (fs st) D = true)
  /\ (In "CHANGELOG.md not found (will be created)" (changelog_note (fs st))
      <-> present (fs st) "CHANGELOG.md" = false).
Proof.
  intros st missing. rewrite check_documentation_eq. cbn [fst snd]. fold missing.
  split; [reflexivity|]. split; [apply app_nil_r|]. split; [|split].
  - intros D HD HP. rewrite warnings_emit. apply in_or_app. right.
    apply (in_map doc_warning). apply filter_In. split; [assumption|now rewrite HP].
  - split.
    + intros [= Hb] D HD. apply negb_true_iff, nonempty_false in Hb.
      destruct (present (fs st) D) eqn:E; [reflexivity|].
      assert (HIn : In D missing) by (apply filter_In; split; [assumption|now rewrite E]).
      rewrite Hb in HIn. contradiction.
    + intros Hall. f_equal. apply negb_true_iff, nonempty_false.
      destruct missing as [|d m] eqn:E; [reflexivity|].
      assert (HIn : In d (missing_docs (fs st))) by (fold missing; rewrite E; now left).
      apply filter_In in HIn as [HIn Hd]. rewrite (Hall d HIn) in Hd. discriminate.
  - unfold changelog_note. destruct (present (fs st) "CHANGELOG.md"); cbn [In].
    + split; [contradiction|discriminate].
    + split; [reflexivity|auto].
Qed.

Lemma X1_documentation_check_witness :
  check_documentation (new_validator (World Samples.repo_no_readme []))
  = (Ret false,
     State Samples.repo_no_readme [] [] ["Missing documentation: README.md"]
           ["CHANGELOG.md not found (will be created)"])
  /\ In "Missing documentation: README.md"
        (warnings (snd (check_documentation (new_validator (World Samples.repo_no_readme []))))).
Proof.
  destruct (X1_documentation_check (new_validator (World Samples.repo_no_readme [])))
    as (H1 & _ & H3 & _).
  split; [rewrite H1; reflexivity|].
  apply (H3 "README.md"); [cbn; tauto|reflexivity].
Defined.

End Documentation_check.

Section Silent_facts.
Import Py FS SDD Sink Trace.
Local Open Scope py_scope.

Lemma silent_pure {A} (f : state -> outcome A) : silent (fun st => (f st, st)).
Proof. intros st. reflexivity. Qed.

Lemma silent_ret {A} (a : A) : silent (ret a).
Proof. apply (silent_pure (fun _ => Ret a)). Qed.

Lemma silent_raise {A} e : silent (@raise A e).
Proof. apply (silent_pure (fun _ => Raise e)). Qed.

Lemma silent_path_exists p : silent (path_exists p).
Proof. intros st. reflexivity. Qed.

Lemma silent_get {A} (f : state -> A) : silent (get f).
Proof. intros st. reflexivity. Qed.

Lemma silent_read_node n : silent (read_node n).
Proof. destruct n as [[]|]; [apply silent_ret|apply silent_raise..]. Qed.

Lemma silent_read_text p : silent (read_text p).
Proof.
  intros st. unfold read_text.
  destruct (lookup (fs st) (path_of p)); [apply silent_read_node|reflexivity].
Qed.

Lemma silent_add_error m : silent (add_error m).
Proof. intros st. reflexivity. Qed.

Lemma silent_add_warning m : silent (add_warning m).
Proof. intros st. reflexivity. Qed.

Lemma silent_add_info m : silent (add_info m).
Proof. intros st. reflexivity. Qed.

Lemma silent_bind {A B} (m : M A) (k : A -> M B) :
  silent m -> (forall a, silent (k a)) -> silent (bind m k).
Proof.
  intros Hm Hk st. rewrite bind_eq. specialize (Hm st).
  destruct (m st) as [[a|e] st']; cbn [snd] in *; [|assumption].
  now rewrite Hk.
Qed.

Lemma silent_try_except {A} (m : M A) caught (h : M A) :
  silent m -> silent h -> silent (try_except m caught h).
Proof.
  intros Hm Hh st. unfold try_except. specialize (Hm st).
  destruct (m st) as [[a|e] st']; cbn [snd] in *; [assumption|].
  destruct (caught e); [now rewrite Hh|assumption].
Qed.

Lemma silent_for_fold {A Acc} (l : list A) (body : A -> Acc -> M Acc) :
  (forall x acc, silent (body x acc)) -> forall acc, silent (for_fold l acc body).
Proof.
  intros Hb. induction l as [|x l IH]; intros acc; cbn [for_fold].
  - apply silent_ret.
  - apply silent_bind; auto.
Qed.

Lemma silent_for_each {A} (l : list A) (body : A -> M unit) :
  (forall x, silent (body x)) -> silent (for_each l body).
Proof. intros Hb. apply silent_for_fold. auto. Qed.

End Silent_facts.

Ltac silent_step :=
  first
    [ apply silent_ret | apply silent_raise | apply silent_path_exists
    | apply silent_read_text | apply silent_read_node
    | apply silent_add_error | apply silent_add_warning | apply silent_add_info
    | apply silent_get
    | apply silent_try_except
    | apply silent_for_each | apply silent_for_fold
    | apply silent_bind
    | match goal with
      | |- Trace.silent (if ?b then _ else _) => destruct b
      | |- Trace.silent (match ?x with _ => _ end) => destruct x
      | |- Trace.silent ((match ?x with _ => _ end) _) => destruct x; cbv beta iota
      | |- forall _, _ => intro
      end ].

Ltac silent_tac := repeat silent_step.

Section Checks_silent.
Import Py FS SDD Sink Trace.

Lemma silent_checks : Forall (fun c => silent (snd c)) checks.
Proof.
  unfold checks. repeat constructor; cbn [snd].
  - unfold check_directory_structure. silent_tac.
  - unfold check_governance_files. silent_tac.
  - unfold check_agent_contexts. silent_tac.
  - unfold check_specifications. silent_tac.
  - unfold check_task_traceability. silent_tac.
  - unfold check_documentation. silent_tac.
  - unfold check_security. silent_tac.
Qed.

End Checks_silent.

Section Run_trace.
Import Py FS SDD Sink Trace Run.
Local Open Scope py_scope.

Lemma checks_loop_trace (cs : list (string * M bool)) :
  Forall (fun c => uniform (snd c)) cs ->
  Forall (fun c => silent (snd c)) cs ->
  forall acc st,
  exists st',
    for_fold cs acc (fun '((check_name, check_func) : string * M bool) all_passed =>
      bind (print ("Checking " ++ check_name ++ "..."))
           (fun _ => bind check_func (fun passed : bool =>
              let status := if passed then "✅ PASS" else "❌ FAIL" in
              bind (print ("  " ++ status ++ nl))
                   (fun _ => ret (all_passed && passed))))) st
    = (loop_outcome (fs st) cs acc, st')
    /\ stdout st' = stdout st ++ progress (fs st) cs.
Proof.
  intros Hu Hs. induction cs as [|[name f] cs IH]; intros acc st.
  - exists st. cbn. now rewrite app_nil_r.
  - inversion Hu as [|? ? Hf Hu']; inversion Hs as [|? ? Hq Hs']; subst.
    cbn [snd] in Hf, Hq. specialize (IH Hu' Hs').
    rewrite for_fold_cons, bind_eq. cbv beta iota.
    rewrite bind_eq, print_emit. rewrite bind_eq, (Hf (emit _ _ _ _ st)), fs_emit.
    unfold progress. cbn [loop_outcome ran snd flat_map]. unfold check_lines at 1.
    cbn [fst snd].
    pose proof (Hq (fresh (fs st))) as Hd. cbn [fresh stdout] in Hd.
    destruct (f (fresh (fs st))) as [[passed|e] d] eqn:Ef; cbn [fst snd] in *.
    + cbv zeta. rewrite bind_eq, print_emit. unfold ret at 1.
      destruct (IH (acc && passed)
                   (emit [] [] [] [("  " ++ (if passed then "✅ PASS" else "❌ FAIL") ++ nl)%string]
                         (replay d (emit [] [] [] [("Checking " ++ name ++ "...")%string] st))))
        as (st' & E & Hout).
      rewrite fs_emit, fs_replay, fs_emit in E, Hout.
      exists st'. split; [exact E|].
      rewrite Hout. unfold replay. rewrite !stdout_emit, Hd, app_nil_r.
      unfold progress, status_line. cbn [app]. now rewrite <- !app_assoc.
    + eexists. split; [reflexivity|].
      unfold replay. rewrite !stdout_emit, Hd, app_nil_r. cbn [flat_map app].
      reflexivity.
Qed.

Lemma run_checks_trace st :
  fst (run_checks st) = loop_outcome (fs st) checks true
  /\ stdout (snd (run_checks st)) = stdout st ++ banner :: progress (fs st) checks.
Proof.
  unfold run_checks. rewrite bind_eq, print_emit.
  destruct (checks_loop_trace checks uniform_checks silent_checks true
                              (emit [] [] [] [banner] st)) as (st' & E & Hout).
  rewrite fs_emit in E, Hout. unfold banner in E. rewrite E. cbn [fst snd].
  split; [reflexivity|]. rewrite Hout, stdout_emit. now rewrite <- app_assoc.
Qed.

End Run_trace.

Section Loop_outcome.
Import Py FS SDD Sink Trace Run.

Lemma loop_outcome_Ret root (cs : list (string * M bool)) : forall acc b,
  loop_outcome root cs acc = Ret b ->
  ran root cs = cs
  /\ b = acc && forallb (passed_alone root) cs
  /\ Forall (fun c => exists p, fst (snd c (fresh root)) = Ret p) cs.
Proof.
  induction cs as [|c cs IH]; intros acc b; cbn [loop_outcome ran forallb].
  - intros [= <-]. now rewrite andb_true_r.
  - unfold passed_alone at 1.
    destruct (fst (snd c (fresh root))) as [p|e] eqn:E; [|discriminate].
    intros H. apply IH in H as (H1 & H2 & H3).
    rewrite H1. split; [reflexivity|]. split; [now rewrite andb_assoc|].
    constructor; eauto.
Qed.

Lemma loop_outcome_Raise root (cs : list (string * M bool)) : forall acc e,
  loop_outcome root cs acc = Raise e ->
  exists pre c post,
    cs = pre ++ c :: post
    /\ ran root cs = pre ++ [c]
    /\ fst (snd c (fresh root)) = Raise e
    /\ Forall (fun c => exists p, fst (snd c (fresh root)) = Ret p) pre.
Proof.
  induction cs as [|c cs IH]; intros acc e; cbn [loop_outcome ran]; [discriminate|].
  destruct (fst (snd c (fresh root))) as [p|e'] eqn:E.
  - intros H. apply IH in H as (pre & c' & post & -> & H2 & H3 & H4).
    exists (c :: pre), c', post. rewrite H2. repeat split; auto.
    constructor; eauto.
  - intros [= ->]. exists [], c, cs. repeat split; auto.
Qed.

Lemma validate_all_trace st :
  fst (validate_all st) = loop_outcome (fs st) checks true
  /\ stdout (snd (validate_all st))
     = stdout st ++ banner :: progress (fs st) checks
         ++ match loop_outcome (fs st) checks true with
            | Ret _ => summary_lines (errors (snd (validate_all st)))
                                     (warnings (snd (validate_all st)))
                                     (info (snd (validate_all st)))
            | Raise _ => []
            end.
Proof.
  rewrite validate_all_eq.
  destruct (run_checks_trace st) as [H1 H2]. rewrite <- H1.
  destruct (run_checks st) as [[b|e] st1]; cbn [fst snd] in *.
  - split; [reflexivity|].
    rewrite stdout_emit, errors_emit, warnings_emit, info_emit, !app_nil_r, H2.
    now rewrite <- app_assoc.
  - split; [reflexivity|]. now rewrite H2, app_nil_r.
Qed.

Lemma check_lines_Ret root (c : string * M bool) (p : bool) :
  fst (snd c (fresh root)) = Ret p ->
  passed_alone root c = p
  /\ check_lines root c = [("Checking " ++ fst c ++ "...")%string; status_line p].
Proof. unfold passed_alone, check_lines. now intros ->. Qed.

Lemma progress_all root (cs : list (string * M bool)) :
  Forall (fun c => exists p, fst (snd c (fresh root)) = Ret p) cs ->
  ran root cs = cs
  /\ progress root cs
     = flat_map (fun c => [("Checking " ++ fst c ++ "...")%string;
                           status_line (passed_alone root c)]) cs.
Proof.
  induction 1 as [|c cs [p Hp] Hcs [IH1 IH2]].
  - split; reflexivity.
  - assert (Hran : ran root (c :: cs) = c :: cs).
    { change (ran root (c :: cs))
        with (c :: match fst (snd c (fresh root)) with
                   | Ret _ => ran root cs
                   | Raise _ => []
                   end).
      now rewrite Hp, IH1. }
    split; [exact Hran|].
    unfold progress in *. rewrite Hran. rewrite IH1 in IH2.
    change (flat_map (check_lines root) (c :: cs))
      with (check_lines root c ++ flat_map (check_lines root) cs).
    rewrite IH2. cbn [flat_map app].
    destruct (check_lines_Ret root c p Hp) as [-> ->]. reflexivity.
Qed.

(** X2: the run's boolean is the conjunction of the results the checks
    give in table order, or the first exception one of them raises.  When
    every check returns, the run prints the banner, then for each check of
    the table, in order, its "Checking <name>..." line followed by a PASS
    line if that check returned true and a FAIL line if it returned false,
    and then the summary of the final lists. *)
Theorem X2_progress_report : forall (st : state) (b : bool),
  fst (validate_all st) = Ret b ->
  b = forallb (passed_alone (fs st)) checks
  /\ stdout (snd (validate_all st))
     = stdout st
         ++ banner
         :: flat_map (fun c => [("Checking " ++ fst c ++ "...")%string;
                                status_line (passed_alone (fs st) c)]) checks
         ++ summary_lines (errors (snd (validate_all st)))
                          (warnings (snd (validate_all st)))
                          (info (snd (validate_all st))).
Proof.
  intros st b Hret. destruct (validate_all_trace st) as [H1 H2].
  rewrite Hret in H1. symmetry in H1.
  destruct (loop_outcome_Ret _ _ _ _ H1) as (_ & Hb & Hall).
  rewrite andb_true_l in Hb. split; [exact Hb|].
  rewrite H2, H1. now rewrite (proj2 (progress_all _ _ Hall)).
Qed.

Lemma X2_progress_report_witness :
  let st := new_validator (World Samples.repo_no_readme []) in
  fst (validate_all st) = Ret false
  /\ forallb (passed_alone (fs st)) checks = false
  /\ In (status_line false) (stdout (snd (validate_all st))).
Proof.
  assert (H : fst (validate_all (new_validator (World Samples.repo_no_readme [])))
              = Ret false) by (vm_compute; reflexivity).
  destruct (X2_progress_report _ _ H) as [Hb Hout].
  split; [exact H|]. split; [now rewrite <- Hb|].
  cbv zeta. rewrite Hout. vm_compute.
  repeat first [left; reflexivity | right].
Defined.

Lemma not_summary_line root (cs : list (string * M bool)) :
  ~ In "VALIDATION SUMMARY" (banner :: progress root cs).
Proof.
  intros [H|H]; [discriminate H|].
  unfold progress in H. apply in_flat_map in H as (c & _ & Hc).
  unfold check_lines in Hc. destruct Hc as [Hc|Hc]; [discriminate Hc|].
  destruct (fst (snd c (fresh root))) as [[]|]; cbn [In] in Hc;
    [destruct Hc as [Hc|[]]; discriminate Hc..|contradiction].
Qed.

(** X3: when a check raises, the checks after it in the table do not run,
    the run prints the banner and the progress lines up to the name of
    the raising check and no summary, and the process exits with
    status 1. *)
Theorem X3_exception_ends_the_run : forall (w : world) (e : exn),
  fst (validate_all (new_validator w)) = Raise e ->
  fst (main w) = 1
  /\ w_stdout (snd (main w)) = w_stdout w ++ banner :: progress (w_fs w) checks
  /\ ~ In "VALIDATION SUMMARY" (banner :: progress (w_fs w) checks)
  /\ exists pre c post,
       checks = pre ++ c :: post
       /\ ran (w_fs w) checks = pre ++ [c]
       /\ fst (snd c (fresh (w_fs w))) = Raise e
       /\ Forall (fun c => exists p, fst (snd c (fresh (w_fs w))) = Ret p) pre.
Proof.
  intros w e Hret.
  destruct (validate_all_trace (new_validator w)) as [H1 H2].
  cbn [new_validator fs stdout] in H1, H2.
  rewrite Hret in H1. symmetry in H1. rewrite H1, app_nil_r in H2.
  unfold main.
  destruct (validate_all (new_validator w)) as [[b|e'] st] eqn:E;
    cbn [fst snd] in *; [discriminate|].
  split; [reflexivity|]. split; [exact H2|]. split; [apply not_summary_line|].
  eapply loop_outcome_Raise; eassumption.
Qed.

Lemma X3_exception_ends_the_run_witness :
  fst (main (World Samples.repo_binary_constitution [])) = 1
  /\ ~ In "VALIDATION SUMMARY"
          (w_stdout (snd (main (World Samples.repo_binary_constitution [])))).
Proof.
  assert (H : fst (validate_all (new_validator (World Samples.repo_binary_constitution [])))
              = Raise UnicodeDecodeError) by (vm_compute; reflexivity).
  destruct (X3_exception_ends_the_run _ _ H) as (H1 & H2 & H3 & _).
  split; [exact H1|]. rewrite H2. exact H3.
Defined.

End Loop_outcome.

Section Exit_status_characterised.
Import Py FS SDD Sink Trace Run Directories Governance Agents Specs Docs Secrets Verdict.



Lemma check_task_traceability_result st : fst (check_task_traceability st) = Ret true.
Proof.
  unfold check_task_traceability. rewrite bind_eq. unfold path_exists.
  destruct (present (fs st) ".git"); cbn [negb]; now rewrite bind_eq, add_info_emit.
Qed.




End Exit_status_characterised.

Section Loud_checks.
Import Py FS SDD Sink Trace Run Directories Governance Agents Specs Docs Secrets.
Local Open Scope py_scope.

Lemma noisy_emit e w i o st : noisy st = true -> noisy (emit e w i o st) = true.
Proof.
  unfold noisy. rewrite errors_emit, warnings_emit, !nonempty_app.
  intros H. apply orb_true_iff in H as [->| ->]; cbn; now rewrite ?orb_true_r.
Qed.

Lemma noisy_error m e w i o st : noisy (emit (m :: e) w i o st) = true.
Proof.
  unfold noisy. rewrite errors_emit, nonempty_app. cbn [nonempty].
  now rewrite orb_true_r.
Qed.

Lemma noisy_warning m e w i o st : noisy (emit e (m :: w) i o st) = true.
Proof.
  unfold noisy. rewrite warnings_emit, (nonempty_app (warnings st)). cbn [nonempty].
  now rewrite !orb_true_r.
Qed.

Lemma noisy_recorded st : noisy st = true -> errors st <> [] \/ warnings st <> [].
Proof.
  unfold noisy. intros H. apply orb_true_iff in H as [H|H]; [left|right];
    intros E; rewrite E in H; discriminate.
Qed.

Lemma loud_of_invariant (c : M bool) :
  (forall root, match c (fresh root) with
                | (Ret b, st') => b = false -> noisy st' = true
                | (Raise _, _) => True
                end) -> loud c.
Proof.
  intros H root Hret. specialize (H root).
  destruct (c (fresh root)) as [[b|e] st']; cbn [fst snd] in *; [|discriminate].
  injection Hret as ->. now apply noisy_recorded, H.
Qed.

Lemma forallb_false_filter {A} (f : A -> bool) (l : list A) :
  forallb f l = false -> filter (fun x => negb (f x)) l <> [].
Proof.
  induction l as [|x l IH]; cbn [forallb filter]; [discriminate|].
  destruct (f x); cbn [negb andb]; [exact IH|discriminate].
Qed.

Lemma loud_directory : loud check_directory_structure.
Proof.
  apply loud_of_invariant. intros root. rewrite check_directory_structure_eq.
  cbn [fresh fs]. intros Hb. apply negb_false_iff in Hb.
  destruct (missing_dirs root); [discriminate|]. apply noisy_error.
Qed.

Lemma loud_governance : loud check_governance_files.
Proof.
  apply loud_of_invariant. intros root. unfold check_governance_files.
  apply (for_fold_invariant (fun b st' => b = false -> noisy st' = true));
    [|discriminate].
  intros [f secs] acc st0 HI. rewrite bind_eq. unfold path_exists at 1.
  destruct (present (fs st0) f); cbn [negb].
  - rewrite bind_eq.
    destruct (read_text_cases f st0) as [(t & _ & ->)|(_ & e & ->)]; [|exact I].
    rewrite section_loop. intros Hb. apply andb_false_iff in Hb as [->|Hb].
    + now apply noisy_emit, HI.
    + apply forallb_false_filter in Hb.
      destruct (filter _ secs); [congruence|]. apply noisy_warning.
  - rewrite bind_eq, add_error_emit. unfold ret. intros _. apply noisy_error.
Qed.

Lemma loud_agent_contexts : loud check_agent_contexts.
Proof.
  apply loud_of_invariant. intros root. unfold check_agent_contexts.
  apply (for_fold_invariant (fun b st' => b = false -> noisy st' = true));
    [|discriminate].
  intros f acc st0 HI. rewrite bind_eq. unfold path_exists at 1.
  destruct (present (fs st0) f); cbn [negb].
  - rewrite bind_eq.
    destruct (read_text_cases f st0) as [(t & _ & ->)|(_ & e & ->)]; [|exact I].
    rewrite context_file_step. intros Hb. now apply noisy_emit, HI.
  - rewrite bind_eq, add_error_emit. unfold ret. intros _. apply noisy_error.
Qed.

Lemma loud_specifications : loud check_specifications.
Proof.
  apply loud_of_invariant. intros root. unfold check_specifications.
  rewrite bind_eq, get_eq. cbn [fresh fs].
  destruct (lookup root (path_of "specs")) as [d|].
  - rewrite bind_eq.
    pose proof (for_fold_invariant
                  (fun b st' => b = true -> noisy st' = true)
                  (rglob ".md" (path_of "specs") d)) as H.
    match goal with
    | |- context [for_fold _ false ?body _] => specialize (H body)
    end.
    match type of H with
    | ?P -> _ =>
        assert (Hbody : P);
        [|specialize (H Hbody false (fresh root) (fun E => False_ind _ (diff_false_true E)))]
    end.
    { intros [p n] acc st0 HI. rewrite bind_eq.
      destruct n as [[t| |]|]; cbn [read_node]; unfold raise; try exact I.
      unfold ret at 1. cbv zeta. rewrite bind_eq.
      destruct (nonempty (Re.findall clarification_re t)).
      - rewrite bind_eq, add_error_emit. unfold ret at 1. rewrite bind_eq.
        destruct (nonempty (Re.findall placeholder_re t));
          [rewrite add_warning_emit|unfold ret at 1]; unfold ret; intros _.
        + apply noisy_emit, noisy_error.
        + apply noisy_error.
      - unfold ret at 1. rewrite bind_eq.
        destruct (nonempty (Re.findall placeholder_re t)).
        + rewrite add_warning_emit. unfold ret. intros _. apply noisy_warning.
        + unfold ret. exact HI. }
    destruct (for_fold _ false _ _) as [[b|e] st']; [|exact I].
    unfold ret. intros Hb. apply negb_false_iff in Hb. auto.
  - rewrite bind_eq, add_info_emit. unfold ret. discriminate.
Qed.

Lemma loud_task_traceability : loud check_task_traceability.
Proof. intros root H. rewrite check_task_traceability_result in H. discriminate. Qed.

Lemma loud_documentation : loud check_documentation.
Proof.
  apply loud_of_invariant. intros root. rewrite check_documentation_eq.
  cbn [fresh fs]. intros Hb. apply negb_false_iff in Hb.
  destruct (missing_docs root); [discriminate|]. apply noisy_warning.
Qed.

Lemma loud_security : loud check_security.
Proof.
  apply loud_of_invariant. intros root. rewrite check_security_eq.
  cbn [fresh fs]. intros Hb. apply negb_false_iff in Hb.
  destruct (secret_errors root); [discriminate|]. apply noisy_error.
Qed.

Lemma loud_checks : Forall (fun c => loud (snd c)) checks.
Proof.
  unfold checks.
  apply Forall_cons; [apply loud_directory|].
  apply Forall_cons; [apply loud_governance|].
  apply Forall_cons; [apply loud_agent_contexts|].
  apply Forall_cons; [apply loud_specifications|].
  apply Forall_cons; [apply loud_task_traceability|].
  apply Forall_cons; [apply loud_documentation|].
  apply Forall_cons; [apply loud_security|].
  apply Forall_nil.
Qed.

End Loud_checks.

Section Clean_run.
Import Py FS SDD Sink Trace Run.

Lemma app_eq_self {A} (l x : list A) : l ++ x = l -> x = [].
Proof.
  intros H. apply (app_inv_head l). now rewrite app_nil_r.
Qed.

Lemma flat_map_nil {A B} (f : A -> list B) (l : list A) :
  flat_map f l = [] -> forall x, In x l -> f x = [].
Proof.
  induction l as [|a l IH]; cbn [flat_map]; [contradiction|].
  intros H x [<-|HIn]; apply app_eq_nil in H as [H1 H2]; auto.
Qed.

Lemma clean_run_passes st b :
  fst (validate_all st) = Ret b ->
  errors (snd (validate_all st)) = errors st ->
  warnings (snd (validate_all st)) = warnings st ->
  b = true.
Proof.
  intros Hret He Hw.
  pose proof (validate_all_found Errors st) as HE. cbn [listing] in HE.
  pose proof (validate_all_found Warnings st) as HW. cbn [listing] in HW.
  rewrite He in HE. rewrite Hw in HW.
  symmetry in HE, HW. apply app_eq_self in HE, HW.
  rewrite (proj1 (validate_all_trace st)) in Hret.
  destruct (loop_outcome_Ret _ _ _ _ Hret) as (Hran & Hb & Hall).
  rewrite Hran in HE, HW. rewrite andb_true_l in Hb. subst b.
  apply forallb_forall. intros c Hc.
  rewrite Forall_forall in Hall. destruct (Hall c Hc) as [p Hp].
  rewrite (proj1 (check_lines_Ret (fs st) c p Hp)).
  destruct p; [reflexivity|]. exfalso.
  pose proof (proj1 (Forall_forall _ _) loud_checks c Hc (fs st) Hp) as [Hl|Hl];
    apply Hl.
  - apply (flat_map_nil _ _ HE c Hc).
  - apply (flat_map_nil _ _ HW c Hc).
Qed.

(** X5: a run in which every check returned and which ends with no error
    and no warning recorded is a success: the orchestrator returns true
    and the process exits with status 0.  A check that returns false has
    always recorded an error or a warning. *)
Theorem X5_clean_run_succeeds : forall (w : world) (b : bool),
  fst (validate_all (new_validator w)) = Ret b ->
  errors (snd (validate_all (new_validator w))) = [] ->
  warnings (snd (validate_all (new_validator w))) = [] ->
  b = true /\ fst (main w) = 0.
Proof.
  intros w b Hret He Hw.
  assert (Hb : b = true) by (eapply clean_run_passes; eassumption).
  split; [exact Hb|]. subst b. unfold main.
  destruct (validate_all (new_validator w)) as [[b|e] st]; cbn [fst snd] in *;
    [|discriminate].
  injection Hret as ->. now rewrite Hw.
Qed.

Lemma X5_clean_run_succeeds_witness :
  fst (main (World Samples.repo_clean [])) = 0.
Proof.
  apply (X5_clean_run_succeeds (World Samples.repo_clean []) true); reflexivity.
Defined.

(** X6: every error fails the run.  When the process exits with status
    0 the error list is empty at the end of the run; so a run that
    recorded an error exits with status 1. *)
Theorem X6_errors_fail_the_run : forall w : world,
  errors (snd (validate_all (new_validator w))) <> [] -> fst (main w) = 1.
Proof.
  intros w Hne. unfold main.
  destruct (validate_all (new_validator w)) as [[[]|e] st] eqn:E; cbn [fst snd] in *;
    try reflexivity.
  exfalso. apply Hne.
  pose proof (run_checks_quiet (new_validator w)) as Hq.
  rewrite validate_all_eq in E.
  destruct (run_checks (new_validator w)) as [[b|e] st1]; cbn [fst snd] in *;
    [|discriminate].
  injection E as -> <-. rewrite errors_emit, app_nil_r. now apply Hq.
Qed.

Lemma X6_errors_fail_the_run_witness :
  fst (main (World Samples.repo_config [])) = 1.
Proof.
  apply X6_errors_fail_the_run. vm_compute. discriminate.
Defined.

End Clean_run.

Section Summary_shape.
Import Py FS SDD Sink Summary.

Lemma block_length (hdr : string) (f : string -> string) (l : list string) :
  List.length (if nonempty l then hdr :: map f l else []) = block_size l.
Proof. destruct l; cbn [nonempty block_size List.length]; now rewrite ?length_map. Qed.

Lemma block_bullets (hdr : string) (f : string -> string) (l : list string) x :
  In x l -> In (f x) (if nonempty l then hdr :: map f l else []).
Proof.
  intros HIn. destruct l; [contradiction|]. cbn [nonempty]. right. now apply in_map.
Qed.

(** X7: the summary leaves the tree and the three lists as they are and
    always returns.  It prints the frame of three lines, then for each
    non-empty list among errors, warnings and notes a heading and one
    bullet line per entry, then one verdict line and the closing rule:
    "failed" when there is an error, "passed with warnings" when there are
    warnings and no error, "all passed" when there is neither. *)
Theorem X7_summary_shape : forall st : state,
  let L := summary_lines (errors st) (warnings st) (info st) in
  print_summary st = (Ret tt, emit [] [] [] L st)
  /\ (exists body,
        L = [rule; "VALIDATION SUMMARY"; rule] ++ body
              ++ [verdict (errors st) (warnings st); rule]
        /\ List.length body
           = block_size (errors st) + block_size (warnings st) + block_size (info st)
        /\ (forall e, In e (errors st) -> In (bullet e) body)
        /\ (forall x, In x (warnings st) -> In (bullet x) body)
        /\ (forall i, In i (info st) -> In (bullet i) body))
  /\ (errors st <> [] ->
        verdict (errors st) (warnings st)
        = (nl ++ "❌ Validation failed - please fix errors")%string).
Proof.
  intros st L. split; [apply print_summary_eq|]. split.
  - exists ((if nonempty (errors st) then
               (nl ++ "❌ ERRORS (" ++ str_of_nat (List.length (errors st)) ++ "):")%string
                 :: map bullet (errors st)
             else [])
            ++ (if nonempty (warnings st) then
                  (nl ++ "⚠️  WARNINGS (" ++ str_of_nat (List.length (warnings st)) ++ "):")%string
                    :: map bullet (warnings st)
                else [])
            ++ (if nonempty (info st) then
                  (nl ++ "ℹ️  INFO (" ++ str_of_nat (List.length (info st)) ++ "):")%string
                    :: map bullet (info st)
                else [])).
    split.
    + unfold L, summary_lines, bullet. rewrite <- !app_assoc. do 4 f_equal.
      cbn [app]. f_equal.
      unfold verdict. destruct (errors st), (warnings st); reflexivity.
    + split; [rewrite !length_app, !block_length; lia|].
      split; [|split]; intros x HIn; rewrite !in_app_iff.
      * left. now apply (block_bullets _ bullet).
      * right. left. now apply (block_bullets _ bullet).
      * right. right. now apply (block_bullets _ bullet).
  - intros Hne. unfold verdict. destruct (errors st); [congruence|reflexivity].
Qed.

Lemma X7_summary_shape_witness :
  let st := State Samples.repo_config [] ["bad"] ["careful"] [] in
  stdout (snd (print_summary st))
  = [rule; "VALIDATION SUMMARY"; rule;
     (nl ++ "❌ ERRORS (1):")%string; "  - bad";
     (nl ++ "⚠️  WARNINGS (1):")%string; "  - careful";
     (nl ++ "❌ Validation failed - please fix errors")%string; rule]
  /\ verdict (errors st) (warnings st)
     = (nl ++ "❌ Validation failed - please fix errors")%string.
Proof.
  destruct (X7_summary_shape (State Samples.repo_config [] ["bad"] ["careful"] []))
    as (H1 & _ & H3).
  split; [rewrite H1; reflexivity|].
  apply H3. discriminate.
Defined.

End Summary_shape.

Section Secret_errors.
Import Py FS SDD Re ReSpec Secrets Tree.

Lemma secret_messages_NoDup (p : list string) :
  NoDup (map (fun pd : pattern * string => secret_error (snd pd) p) secret_patterns).
Proof.
  unfold secret_patterns, secret_error. cbn [map snd].
  generalize (path_str p) as s. intros s.
  repeat (constructor; [cbn [In]; intuition (try discriminate)|]).
  constructor.
Qed.

Lemma hits_NoDup e : NoDup (hits e).
Proof.
  unfold hits. destruct (snd e) as [[t| |]|]; try constructor.
  apply NoDup_map_filter, secret_messages_NoDup.
Qed.

Lemma filter_length_le {A} (q : A -> bool) (l : list A) :
  List.length (filter q l) <= List.length l.
Proof. induction l as [|a l IH]; cbn; [lia|]. destruct (q a); cbn; lia. Qed.

Lemma hits_length e : List.length (hits e) <= 4.
Proof.
  unfold hits. destruct (snd e) as [[t| |]|]; cbn [List.length]; try lia.
  rewrite length_map.
  apply (Nat.le_trans _ _ _ (filter_length_le _ secret_patterns)). reflexivity.
Qed.

Lemma flat_map_length_le {A B} (f : A -> list B) (n : nat) (l : list A) :
  (forall x, List.length (f x) <= n) ->
  List.length (flat_map f l) <= n * List.length l.
Proof.
  intros H. induction l as [|a l IH]; cbn [flat_map List.length]; [lia|].
  rewrite length_app. specialize (H a). lia.
Qed.

(** X8: the errors of the secret scanner name a label of the pattern
    table and the path of a scanned, readable file whose text the
    pattern matches, and nothing of the matched text.  A file gives at
    most one error per pattern however often the pattern occurs in it, so
    at most four errors, all different; a file that cannot be read gives
    none.  The scanner records no warning. *)
Theorem X8_secret_errors : forall st : state,
  let root := fs st in
  errors (snd (check_security st)) = errors st ++ secret_errors root
  /\ warnings (snd (check_security st)) = warnings st
  /\ (forall e, In e (secret_errors root) ->
        exists p t pat desc,
          In (p, File (Text t)) (scanned root)
          /\ In (pat, desc) secret_patterns
          /\ search pat t = true
          /\ e = ("Potential " ++ desc ++ " in " ++ path_str p)%string)
  /\ (forall f, In f (scanned root) ->
        NoDup (hits f) /\ List.length (hits f) <= 4
        /\ (~ Specs.is_text (snd f) -> hits f = []))
  /\ List.length (secret_errors root) <= 4 * List.length (scanned root).
Proof.
  intros st root. rewrite check_security_eq. cbn [snd].
  split; [reflexivity|]. split; [apply app_nil_r|]. split; [|split].
  - intros e HIn. unfold secret_errors in HIn.
    apply in_flat_map in HIn as ([p n] & Hs & Hh). unfold hits in Hh. cbn [fst snd] in Hh.
    destruct n as [[t| |]|]; try contradiction.
    apply in_map_iff in Hh as ([pat desc] & <- & Hf). apply filter_In in Hf as [Hp Hm].
    cbn [fst snd] in *. exists p, t, pat, desc. auto.
  - intros f _. split; [apply hits_NoDup|]. split; [apply hits_length|].
    intros Hn. unfold hits. destruct (snd f) as [[t| |]|]; try reflexivity.
    exfalso. apply Hn. now exists t.
  - unfold secret_errors. apply flat_map_length_le, hits_length.
Qed.

Lemma X8_secret_errors_witness :
  exists p t pat desc,
    In (p, File (Text t)) (scanned Samples.repo_token)
    /\ In (pat, desc) secret_patterns
    /\ search pat t = true
    /\ "Potential GitHub token in notes.md"
       = ("Potential " ++ desc ++ " in " ++ path_str p)%string.
Proof.
  destruct (X8_secret_errors (new_validator (World Samples.repo_token [])))
    as (_ & _ & H & _).
  apply H. left. reflexivity.
Defined.

End Secret_errors.

Section Unguarded_reads.
Import Py FS SDD Re ReSpec Directories Governance Specs Failures.
Local Open Scope py_scope.

Lemma for_fold_app {A Acc} (l1 l2 : list A) (body : A -> Acc -> M Acc) : forall acc st,
  for_fold (l1 ++ l2) acc body st
  = bind (for_fold l1 acc body) (fun acc' => for_fold l2 acc' body) st.
Proof.
  induction l1 as [|x l1 IH]; intros acc st; cbn [app].
  - reflexivity.
  - rewrite bind_eq, !for_fold_cons, !bind_eq.
    destruct (body x acc st) as [[acc'|e] st']; [|reflexivity].
    rewrite IH. now rewrite bind_eq.
Qed.

Lemma read_node_error n e st : read_error n = Some e -> read_node n st = (Raise e, st).
Proof. destruct n as [[t| |]|]; cbn; intros [= <-]; reflexivity || discriminate. Qed.

(** X9: when the specs path exists but holds no entry named *.md, in
    particular when it is a regular file, the specification scanner
    returns true and records nothing, not even a note; and the directory
    check, which tests existence only, does not report such a file as a
    missing directory. *)
Theorem X9_specs_without_markdown : forall st : state,
  (present (fs st) "specs" = true -> md_entries (fs st) = [] ->
     check_specifications st = (Ret true, st))
  /\ (forall c, lookup (fs st) (path_of "specs") = Some (File c) ->
        check_specifications st = (Ret true, st)
        /\ ~ In "specs" (missing_dirs (fs st))).
Proof.
  intros st.
  assert (H : present (fs st) "specs" = true -> md_entries (fs st) = [] ->
              check_specifications st = (Ret true, st)).
  { unfold present, md_entries, check_specifications.
    rewrite bind_eq, get_eq.
    destruct (lookup (fs st) (path_of "specs")) as [d|]; [|discriminate].
    intros _ ->. reflexivity. }
  split; [exact H|].
  intros c Hc.
  assert (Hp : present (fs st) "specs" = true) by (unfold present; now rewrite Hc).
  split.
  - apply H; [exact Hp|]. unfold md_entries. now rewrite Hc.
  - intros HIn. apply filter_In in HIn as [_ HIn]. rewrite Hp in HIn. discriminate.
Qed.

Lemma X9_specs_without_markdown_witness :
  let st := new_validator (World repo_specs_file []) in
  check_specifications st = (Ret true, st)
  /\ ~ In "specs" (missing_dirs (fs st)).
Proof.
  destruct (X9_specs_without_markdown (new_validator (World repo_specs_file [])))
    as [_ H].
  apply (H (Text "not a directory")). reflexivity.
Defined.

(** X10: the specification scanner reads the *.md entries in order and
    stops at the first one that is not readable text: it raises
    UnicodeDecodeError for an undecodable file, PermissionError for a file
    it may not read and IsADirectoryError for a directory named *.md.
    The findings of the entries before it stay recorded; the entries
    after it are not looked at. *)
Theorem X10_specification_read_failure :
  forall (st : state) l1 p n l2 (e : exn),
  md_entries (fs st) = l1 ++ (p, n) :: l2 ->
  Forall (fun x => is_text (snd x)) l1 ->
  read_error n = Some e ->
  check_specifications st
  = (Raise e, emit (clar_errors l1) (placeholder_warnings l1) [] [] st).
Proof.
  intros st l1 p n l2 e Hm Hall He.
  unfold md_entries in Hm. unfold check_specifications.
  rewrite bind_eq, get_eq.
  destruct (lookup (fs st) (path_of "specs")) as [d|]; [|now destruct l1].
  rewrite Hm, bind_eq, for_fold_app, bind_eq.
  rewrite specification_loop by assumption.
  rewrite for_fold_cons, bind_eq. cbv beta iota.
  rewrite bind_eq, (read_node_error n e _ He). reflexivity.
Qed.

Lemma X10_specification_read_failure_witness :
  check_specifications (new_validator (World repo_denied_spec []))
  = (Raise PermissionError,
     State repo_denied_spec []
           ["Unresolved clarifications in specs/a.md: ['[NEEDS CLARIFICATION: scope]']"]
           [] []).
Proof.
  rewrite (X10_specification_read_failure
             (new_validator (World repo_denied_spec []))
             [(["specs"; "a.md"], File (Text "[NEEDS CLARIFICATION: scope]"))]
             ["specs"; "b.md"] (File Denied)
             [(["specs"; "c.md"], File (Text "[NEEDS CLARIFICATION: never reached]"))]
             PermissionError).
  - reflexivity.
  - reflexivity.
  - repeat constructor. now exists "[NEEDS CLARIFICATION: scope]".
  - reflexivity.
Defined.

(** X11: the governance check handles the files of its table in order
    and stops at the first one that exists but is not readable text,
    raising the exception of the failed read; the errors and warnings
    about the files before it stay recorded, and the files after it are
    not examined. *)
Theorem X11_governance_read_failure :
  forall (st : state) pre F S post n (e : exn),
  required_files = pre ++ (F, S) :: post ->
  Governance.readable (fs st) pre ->
  lookup (fs st) (path_of F) = Some n ->
  read_error n = Some e ->
  check_governance_files st
  = (Raise e,
     emit (map gov_error (absent_files (fs st) pre)) (gov_warnings (fs st) pre) [] [] st).
Proof.
  intros st pre F S post n e Ht Hr Hn He.
  unfold check_governance_files. rewrite Ht, for_fold_app, bind_eq.
  rewrite governance_loop by assumption.
  rewrite for_fold_cons, bind_eq. cbv beta iota.
  rewrite bind_eq. unfold path_exists at 1. rewrite fs_emit.
  unfold present. rewrite Hn. cbn [negb].
  rewrite bind_eq. unfold read_text. rewrite fs_emit, Hn.
  rewrite (read_node_error n e _ He). reflexivity.
Qed.

Lemma X11_governance_read_failure_witness :
  check_governance_files (new_validator (World repo_binary_checklist []))
  = (Raise UnicodeDecodeError,
     State repo_binary_checklist []
           ["Missing governance file: dev-docs/sdd/constitution.md"] [] []).
Proof.
  rewrite (X11_governance_read_failure
             (new_validator (World repo_binary_checklist []))
             [("dev-docs/sdd/constitution.md",
               ["Core Principles"; "Development Gates"; "Version"])]
             "dev-docs/sdd/constitution_update_checklist.md"
             ["Pre-Amendment"; "Post-Amendment"]
             [("dev-docs/sdd/lifecycle.md",
               ["Lifecycle Phases"; "Enforcement"; "Traceability"])]
             (File Undecodable) UnicodeDecodeError).
  - reflexivity.
  - reflexivity.
  - intros f secs [E|[]] Hp. injection E as <- <-. discriminate Hp.
  - reflexivity.
  - reflexivity.
Defined.

End Unguarded_reads.
